(** * AI Trading Journal: the analytics of [backend/main.py]

    A shallow embedding of the two analysis end points of the journal's
    backend, [analyze_performance] and [analyze_patterns], together with
    the [TradeEntry] model they read.

    Python's [float] is IEEE 754 binary64.  It is modelled by the
    Standard Library's [spec_float] at precision 53 and maximal exponent
    1024, whose operations round to nearest, ties to even, as the
    hardware does.  Python's [int] is [Z], [str] is [string], a [list] is
    a [list], and the insertion-ordered [dict] of the analyzer is an
    association list with unique keys kept in insertion order. *)

From Stdlib Require Import ZArith List String Ascii Bool Lia.
From Stdlib Require Import Permutation Sorted.
From Stdlib Require Import Floats.SpecFloat DecimalString.
Import ListNotations.

Local Open Scope string_scope.
Local Open Scope list_scope.
Local Open Scope Z_scope.

(** ** Python floats *)

Module B64.

Definition prec : Z := 53.
Definition emax : Z := 1024.

Definition float : Type := spec_float.

Definition zero : float := S754_zero false.
Definition inf : float := S754_infinity false.

Definition add : float -> float -> float := SFadd prec emax.
Definition sub : float -> float -> float := SFsub prec emax.
Definition mul : float -> float -> float := SFmul prec emax.
Definition div : float -> float -> float := SFdiv prec emax.
Definition abs : float -> float := SFabs.
Definition ltb : float -> float -> bool := SFltb.
Definition leb : float -> float -> bool := SFleb.
Definition eqb : float -> float -> bool := SFeqb.

(** [float(n)] for a Python integer [n] within the range of a double. *)
Definition of_int (n : Z) : float := binary_normalize prec emax n 0 false.

Definition is_zero (x : float) : bool :=
  match x with S754_zero _ => true | _ => false end.

Definition is_nan (x : float) : bool :=
  match x with S754_nan => true | _ => false end.

End B64.

Abbreviation float := B64.float.

(** ** Exceptions and results *)

Inductive exn : Type :=
| HTTPException (status_code : Z) (detail : string)
| ZeroDivisionError
| OverflowError
| ValueError (message : string).

Inductive result (A : Type) : Type :=
| Ok (a : A)
| Raise (e : exn).

Arguments Ok {A} a.
Arguments Raise {A} e.

Definition bind {A B : Type} (r : result A) (k : A -> result B) : result B :=
  match r with
  | Ok a => k a
  | Raise e => Raise e
  end.

Notation "x <- r ;; k" := (bind r (fun x => k))
  (at level 61, r at next level, right associativity).

Fixpoint mapM {A B : Type} (f : A -> result B) (l : list A) : result (list B) :=
  match l with
  | [] => Ok []
  | a :: l' => b <- f a ;; bs <- mapM f l' ;; Ok (b :: bs)
  end.

(** ** Python arithmetic used by the end points *)

(** [x / y] on two floats: a zero divisor raises. *)
Definition float_truediv (x y : float) : result float :=
  if B64.is_zero y then Raise ZeroDivisionError else Ok (B64.div x y).

(** [a / b] on two integers: the quotient of the integers themselves,
    rounded once to the nearest double. *)
Definition int_truediv (a b : Z) : result float :=
  match b with
  | Z0 => Raise ZeroDivisionError
  | _ =>
    match a with
    | Z0 => Ok (S754_zero (b <? 0))
    | _ =>
      match B64.div (S754_finite (a <? 0) (Z.to_pos (Z.abs a)) 0)
                    (S754_finite (b <? 0) (Z.to_pos (Z.abs b)) 0) with
      | S754_infinity _ => Raise OverflowError
      | q => Ok q
      end
    end
  end.

(** The builtin [sum] over floats: starts from the integer [0] and adds
    from left to right, each addition rounded.  (CPython 3.12 and later
    also carry a correction term for the rounding errors; the sums of the
    example below are exact either way.) *)
Definition py_sum (l : list float) : float :=
  fold_left B64.add l (B64.of_int 0).

(** [sum] over a list of booleans counts the [True]s. *)
Definition sum_bools (l : list bool) : Z :=
  fold_left (fun acc (b : bool) => acc + (if b then 1 else 0)) l 0.

Definition len {A : Type} (l : list A) : Z := Z.of_nat (List.length l).

(** Modelled from the spec: [numpy.mean], a library function outside the
    repository; the spec calls its result the arithmetic mean of the
    pool, which is the sum of the pool over the number of its entries. *)
Definition np_mean (l : list float) : float :=
  B64.div (py_sum l) (B64.of_int (len l)).

(** ** Formatting a float with one decimal, as ["{:.1f}"] does

    The exact binary value is rounded to the nearest tenth, ties to
    even, and printed with at least one integer digit. *)

Definition round_half_even (num den : Z) : Z :=
  let q := num / den in
  match 2 * (num mod den) ?= den with
  | Lt => q
  | Eq => if Z.even q then q else q + 1
  | Gt => q + 1
  end.

(** The number of tenths nearest to [m * 2 ^ e]. *)
Definition tenths (m : positive) (e : Z) : Z :=
  match e with
  | Zneg p => round_half_even (Zpos m * 10) (2 ^ Zpos p)
  | _ => Zpos m * 10 * 2 ^ e
  end.

Definition str_of_Z (n : Z) : string :=
  NilZero.string_of_uint (N.to_uint (Z.to_N n)).

Definition format_1f (x : float) : string :=
  match x with
  | S754_nan => "nan"
  | S754_infinity s => if s then "-inf" else "inf"
  | S754_zero s => if s then "-0.0" else "0.0"
  | S754_finite s m e =>
    let t := tenths m e in
    ((if s then "-" else "") ++ str_of_Z (t / 10) ++ "." ++ str_of_Z (t mod 10))%string
  end.

(** ** [sorted(..., key=..., reverse=True)]

    Python's sort is stable, also with [reverse=True]: entries whose keys
    compare equal keep their original order.  The keys are computed
    first; the entries are then ordered by [<] on the keys.  On keys that
    [<] orders totally this is the stable insertion sort below, which
    puts an entry after the entries of larger key and before the entries
    of equal or smaller key that followed it in the input. *)

Section Sorted.
Context {A : Type}.

Fixpoint insert_desc (x : float * A) (l : list (float * A)) : list (float * A) :=
  match l with
  | [] => [x]
  | y :: l' =>
    if B64.ltb (fst x) (fst y) then y :: insert_desc x l' else x :: l
  end.

Definition sorted_reverse (l : list (float * A)) : list (float * A) :=
  fold_right insert_desc [] l.
End Sorted.

(** ** Models *)

Record MarketCondition : Type := {
  name : string;
  description : option string
}.

Record TradeEntry : Type := {
  entry_date : Z;
  symbol : string;
  entry_price : float;
  exit_price : float;
  position_size : float;
  trade_type : string;
  market_conditions : list string;
  notes : string;
  chart_images : list string
}.

Definition multiplier (t : TradeEntry) : Z :=
  if String.eqb (trade_type t) "long" then 1 else -1.

Definition profit_loss (t : TradeEntry) : float :=
  B64.mul
    (B64.mul (B64.of_int (multiplier t))
             (B64.sub (exit_price t) (entry_price t)))
    (position_size t).

Record TradeAnalysis : Type := {
  win_rate : float;
  profit_factor : float;
  average_win : float;
  average_loss : float;
  best_conditions : list string;
  pattern_insights : list string
}.

(** The two module-level lists of the service. *)
Record AppState : Type := {
  trades : list TradeEntry;
  stored_conditions : list MarketCondition
}.

(** ** Routes that write and read the journal *)

Definition create_trade (trade : TradeEntry) (st : AppState)
  : AppState * TradeEntry :=
  ({| trades := trades st ++ [trade];
      stored_conditions := stored_conditions st |}, trade).

Definition get_trades (st : AppState) : AppState * list TradeEntry :=
  (st, trades st).

Definition create_market_condition (condition : MarketCondition) (st : AppState)
  : AppState * MarketCondition :=
  ({| trades := trades st;
      stored_conditions := stored_conditions st ++ [condition] |}, condition).

Definition get_market_conditions (st : AppState)
  : AppState * list MarketCondition :=
  (st, stored_conditions st).

(** ** [analyze_performance] *)

(** [x > 0] and [x < 0] against the integer [0]. *)
Definition gt0 (x : float) : bool := B64.ltb (B64.of_int 0) x.
Definition lt0 (x : float) : bool := B64.ltb x (B64.of_int 0).

(** The insertion-ordered dictionary from a condition to the outcomes of
    the trades recorded under it. *)
Definition perf_dict : Type := list (string * list bool).

(** [if k not in d: d[k] = []] followed by [d[k].append(b)]. *)
Fixpoint dict_append (d : perf_dict) (k : string) (b : bool) : perf_dict :=
  match d with
  | [] => [(k, [b])]
  | (k', v) :: d' =>
    if String.eqb k k' then (k', v ++ [b]) :: d'
    else (k', v) :: dict_append d' k b
  end.

Definition record_trade (d : perf_dict) (trade : TradeEntry) : perf_dict :=
  fold_left (fun d condition => dict_append d condition (gt0 (profit_loss trade)))
            (market_conditions trade) d.

Definition condition_performance (ts : list TradeEntry) : perf_dict :=
  fold_left record_trade ts [].

(** The sort key [sum(x[1]) / len(x[1])]. *)
Definition rate (x : string * list bool) : result float :=
  int_truediv (sum_bools (snd x)) (len (snd x)).

Definition with_key (x : string * list bool)
  : result (float * (string * list bool)) :=
  k <- rate x ;; Ok (k, x).

Definition insight (c : string * list bool) : result string :=
  r <- rate c ;;
  Ok ("Best win rate in " ++ fst c ++ ": "
      ++ format_1f (B64.mul r (B64.of_int 100)) ++ "%")%string.

Definition nonempty {A : Type} (l : list A) : bool :=
  match l with [] => false | _ => true end.

Definition analyze_performance (st : AppState) : result TradeAnalysis :=
  if negb (nonempty (trades st)) then
    Raise (HTTPException 404 "No trades found")
  else
    let winning_trades := filter (fun t => gt0 (profit_loss t)) (trades st) in
    win_rate <- int_truediv (len winning_trades) (len (trades st)) ;;
    let profits :=
      map profit_loss (filter (fun t => gt0 (profit_loss t)) (trades st)) in
    let losses :=
      map (fun t => B64.abs (profit_loss t))
          (filter (fun t => lt0 (profit_loss t)) (trades st)) in
    let avg_win := if nonempty profits then np_mean profits else B64.of_int 0 in
    let avg_loss := if nonempty losses then np_mean losses else B64.of_int 0 in
    profit_factor <-
      (if nonempty losses
       then float_truediv (py_sum profits) (B64.abs (py_sum losses))
       else Ok B64.inf) ;;
    keyed <- mapM with_key (condition_performance (trades st)) ;;
    let best_conditions := firstn 3 (map snd (sorted_reverse keyed)) in
    insights <- mapM insight best_conditions ;;
    Ok {| win_rate := win_rate;
          profit_factor := profit_factor;
          average_win := avg_win;
          average_loss := avg_loss;
          best_conditions := map fst best_conditions;
          pattern_insights := insights |}.

(** ** Vocabulary of the analyzer's specification *)

(** The value of a result, for the places where it cannot be an error. *)
Definition value_or_nan (r : result float) : float :=
  match r with
  | Ok q => q
  | Raise _ => S754_nan
  end.

Definition rate_value (x : string * list bool) : float :=
  value_or_nan (rate x).

Definition winning (t : TradeEntry) : bool := gt0 (profit_loss t).

Definition losing (t : TradeEntry) : bool := lt0 (profit_loss t).

Definition break_even (t : TradeEntry) : bool :=
  B64.eqb (profit_loss t) (B64.of_int 0).

(** The profit pool and the loss pool, the latter in absolute value. *)
Definition profit_pool (ts : list TradeEntry) : list float :=
  map profit_loss (filter winning ts).

Definition loss_pool (ts : list TradeEntry) : list float :=
  map (fun t => B64.abs (profit_loss t)) (filter losing ts).

(** A float between zero and one, both included. *)
Definition in_unit_interval (x : float) : Prop :=
  B64.leb (B64.of_int 0) x = true /\ B64.leb x (B64.of_int 1) = true.

(** The shape of a rounded quotient that does not exceed one. *)
Definition below_one (q : float) : Prop :=
  q = S754_zero false
  \/ exists m e, q = S754_finite false m e /\ e <= -52 /\ Zpos m <= 2 ^ (- e).

(** Positive infinity, or a positive finite float whose exponent is at
    least that of the subnormals. *)
Definition positive_float (x : float) : Prop :=
  x = S754_infinity false
  \/ exists m e, x = S754_finite false m e /\ -1074 <= e.

(** Membership in a list of labels, as [in] computes it. *)
Definition mem (k : string) (l : list string) : bool :=
  existsb (String.eqb k) l.

Definition carries (k : string) (t : TradeEntry) : bool :=
  mem k (market_conditions t).

(** The labels of the lists in first-seen order, each once. *)
Definition add_key (seen : list string) (k : string) : list string :=
  if mem k seen then seen else seen ++ [k].

Definition first_seen (ls : list (list string)) : list string :=
  fold_left add_key (List.concat ls) [].

(** The journal as the sequence of (label, outcome) pairs that the two
    nested loops of the analyzer visit. *)
Definition events (ts : list TradeEntry) : list (string * bool) :=
  flat_map (fun t => map (fun c => (c, winning t)) (market_conditions t)) ts.

Definition record_all (d : perf_dict) (evs : list (string * bool)) : perf_dict :=
  fold_left (fun d ev => dict_append d (fst ev) (snd ev)) evs d.

Definition outcomes (k : string) (evs : list (string * bool)) : list bool :=
  map snd (filter (fun ev => String.eqb k (fst ev)) evs).

Fixpoint value_of (d : perf_dict) (k : string) : list bool :=
  match d with
  | [] => []
  | (k', v) :: d' => if String.eqb k k' then v else value_of d' k
  end.

(** How often the label occurs in the condition lists of the trades. *)
Definition occurrences (k : string) (ts : list TradeEntry) : Z :=
  len (flat_map (fun t => filter (String.eqb k) (market_conditions t)) ts).

(** The text of an insight. *)
Definition insight_text (c : string * list bool) : string :=
  ("Best win rate in " ++ fst c ++ ": "
   ++ format_1f (B64.mul (rate_value c) (B64.of_int 100)) ++ "%")%string.

(** *** Ranking by a key, largest first, ties in the original order *)

Section Ranking.
Context {A : Type} (key : A -> float).

Definition decorate (x : A) : float * A := (key x, x).

Fixpoint insert_by (x : A) (s : list A) : list A :=
  match s with
  | [] => [x]
  | y :: s' => if B64.ltb (key x) (key y) then y :: insert_by x s' else x :: s
  end.

Definition sort_by (l : list A) : list A := fold_right insert_by [] l.

(** [x] stands before [y] in [l]. *)
Definition before (l : list A) (x y : A) : Prop :=
  exists l1 l2 l3, l = l1 ++ x :: l2 ++ y :: l3.

(** [x] is ranked before [y]: its key is larger, or the keys are equal
    and [x] came first in [l]. *)
Definition ranks_before (l : list A) (x y : A) : Prop :=
  B64.ltb (key y) (key x) = true
  \/ (B64.eqb (key x) (key y) = true /\ before l x y).

End Ranking.

(** The report that the analyzer returns on a journal that is not empty. *)
Definition report_of (ts : list TradeEntry) : TradeAnalysis :=
  let ranked := sort_by rate_value (condition_performance ts) in
  {| win_rate := value_or_nan (int_truediv (len (filter winning ts)) (len ts));
     profit_factor :=
       if nonempty (loss_pool ts)
       then B64.div (py_sum (profit_pool ts)) (py_sum (loss_pool ts))
       else B64.inf;
     average_win :=
       if nonempty (profit_pool ts) then np_mean (profit_pool ts) else B64.of_int 0;
     average_loss :=
       if nonempty (loss_pool ts) then np_mean (loss_pool ts) else B64.of_int 0;
     best_conditions := map fst (firstn 3 ranked);
     pattern_insights := map insight_text (firstn 3 ranked) |}.

(** *** Snapshots that compare equal

    Two floats are the same for [==] when they are identical or compare
    equal, which also identifies the two zeros. *)

Definition same_float (x y : float) : Prop :=
  x = y \/ B64.eqb x y = true.

Definition same_trade (t u : TradeEntry) : Prop :=
  entry_date t = entry_date u
  /\ symbol t = symbol u
  /\ same_float (entry_price t) (entry_price u)
  /\ same_float (exit_price t) (exit_price u)
  /\ same_float (position_size t) (position_size u)
  /\ trade_type t = trade_type u
  /\ market_conditions t = market_conditions u
  /\ notes t = notes u
  /\ chart_images t = chart_images u.

(** Identical, or both a zero. *)
Definition alike (x y : float) : Prop :=
  x = y \/ (B64.is_zero x = true /\ B64.is_zero y = true).

(** ** [analyze_patterns] *)

(** An entry of a feature row: the rows mix floats and integers. *)
Inductive num : Type :=
| PyFloat (f : float)
| PyInt (n : Z).

Record PatternReport : Type := {
  important_factors : list (string * float);
  success_patterns : list string
}.

(** [float(b)] on a boolean. *)
Definition float_of_bool (b : bool) : float :=
  B64.of_int (if b then 1 else 0).

(** What [clf.fit(features, labels)] leaves behind: the fitted forest,
    read through its [feature_importances_], or the [ValueError] with
    which the library turns down a training set. *)
Inductive fit : Type :=
| Fitted (feature_importances_ : list float)
| Rejected (message : string).

Section PatternMiner.

(** The [set().union] of the lists followed by an iteration over it: the
    elements of the lists, each once, in an order that the set's hash
    table decides.  The two places that build the set build it from the
    same lists in the same process, hence the function. *)
Variable set_union : list (list string) -> list string.

(** [RandomForestClassifier(n_estimators).fit(X, y)].  The forest is a
    library outside the repository.  It checks the training set and
    raises on one it does not take, and it grows its trees from a random
    state that the code does not seed: every call of the end point draws
    a state of its own, the first argument here, and two calls on the
    same journal are two draws. *)
Variable random_state : Type.
Variable forest : random_state -> Z -> list (list num) -> list Z -> fit.

Definition all_conditions (ts : list TradeEntry) : list string :=
  set_union (map market_conditions ts).

Definition condition_features (ts : list TradeEntry) (trade : TradeEntry)
  : list Z :=
  map (fun cond =>
         if existsb (String.eqb cond) (market_conditions trade) then 1 else 0)
      (all_conditions ts).

Definition feature_row (ts : list TradeEntry) (trade : TradeEntry) : list num :=
  PyFloat (float_of_bool (String.eqb (trade_type trade) "long"))
  :: PyFloat (position_size trade)
  :: map PyInt (condition_features ts trade).

Definition features (ts : list TradeEntry) : list (list num) :=
  map (feature_row ts) ts.

Definition labels (ts : list TradeEntry) : list Z :=
  map (fun trade => if gt0 (profit_loss trade) then 1 else 0) ts.

Definition feature_names (ts : list TradeEntry) : list string :=
  "trade_type" :: "position_size" :: all_conditions ts.

(** [sorted(zip(feature_names, clf.feature_importances_), key=..., reverse=True)] *)
Definition importance (ts : list TradeEntry) (feature_importances_ : list float)
  : list (string * float) :=
  map snd (sorted_reverse
             (map (fun x => (snd x, x))
                  (combine (feature_names ts) feature_importances_))).

Definition analyze_patterns (rs : random_state) (st : AppState)
  : result PatternReport :=
  if len (trades st) <? 10 then
    Raise (HTTPException 400 "Need at least 10 trades for pattern analysis")
  else
    match forest rs 50 (features (trades st)) (labels (trades st)) with
    | Rejected message => Raise (ValueError message)
    | Fitted feature_importances_ =>
      let importance := importance (trades st) feature_importances_ in
      Ok {| important_factors := firstn 5 importance;
            success_patterns :=
              map (fun i =>
                     ("High correlation between "
                      ++ fst (nth i importance ("", B64.zero))
                      ++ " and profitable trades")%string)
                  (seq 0 (Nat.min 3 (List.length importance))) |}
    end.

End PatternMiner.

(** ** Instances used to run the end points on concrete journals *)

(** The same score for every column. *)
Definition uniform_importances (X : list (list num)) : list float :=
  match X with
  | [] => []
  | row :: _ => map (fun _ => B64.div (B64.of_int 1) (B64.of_int (len row))) row
  end.

(** Scores that grow with the column and add up to one: column [i] of
    [n] gets [(i + 1) / (n (n + 1) / 2)]. *)
Definition ramp_importances (X : list (list num)) : list float :=
  match X with
  | [] => []
  | row :: _ =>
    map (fun i => B64.div (B64.of_int (Z.of_nat i + 1))
                          (B64.of_int (len row * (len row + 1) / 2)))
        (seq 0 (List.length row))
  end.

(** The library stores the training set in single precision and turns
    down a set with an entry that is infinite there: a double of
    magnitude [2^128 - 2^103] or more, half a unit in the last place
    above the largest single, rounds to an infinity. *)
Definition float32_overflows (x : num) : bool :=
  match x with
  | PyFloat f => B64.leb (B64.of_int (2 ^ 128 - 2 ^ 103)) (B64.abs f)
  | PyInt n => 2 ^ 128 - 2 ^ 103 <=? Z.abs n
  end.

(** A forest for the examples.  The library's check of its input comes
    first; a set that passes is scored, uniformly or along the ramp as
    the draw has it. *)
Definition sample_forest (rs : bool) (_ : Z) (X : list (list num)) (_ : list Z)
  : fit :=
  if existsb (existsb float32_overflows) X then
    Rejected "Input X contains infinity or a value too large for dtype('float32')."
  else Fitted (if rs then uniform_importances X else ramp_importances X).

Definition mk_trade (ty : string) (en ex sz : Z) (conds : list string) : TradeEntry :=
  {| entry_date := 0; symbol := "ACME";
     entry_price := B64.of_int en;
     exit_price := B64.of_int ex;
     position_size := B64.of_int sz;
     trade_type := ty;
     market_conditions := conds;
     notes := "";
     chart_images := [] |}.

Definition journal (ts : list TradeEntry) : AppState :=
  {| trades := ts; stored_conditions := [] |}.

(** The journal of three trades of the specification's example. *)
Definition example_trades : list TradeEntry :=
  [ mk_trade "long" 100 110 1 ["trend"];
    mk_trade "short" 50 40 2 ["trend"];
    mk_trade "long" 30 20 1 ["range"] ].

(** A journal in which one trade lists the same label twice. *)
Definition repeated_label_trades : list TradeEntry :=
  [ mk_trade "long" 100 110 1 ["trend"; "trend"];
    mk_trade "long" 30 20 1 ["trend"] ].

(** A journal of ten trades, the floor of the pattern miner. *)
Definition ten_trades : list TradeEntry :=
  example_trades ++ example_trades ++ example_trades
  ++ [mk_trade "short" 10 12 1 ["news"]].

(** A journal in which the one winner under "breakout" lists the label
    three times. *)
Definition skewed_trades : list TradeEntry :=
  [ mk_trade "long" 100 110 1 ["breakout"; "breakout"; "breakout"];
    mk_trade "long" 30 20 1 ["breakout"];
    mk_trade "long" 30 20 1 ["breakout"];
    mk_trade "long" 100 110 1 ["range"];
    mk_trade "long" 30 20 1 ["range"] ].

(** Ten trades of a position size of [1e39], beyond single precision. *)
Definition oversized_trades : list TradeEntry :=
  repeat (mk_trade "long" 100 110 (10 ^ 39) ["trend"]) 10.

(** Eleven trades over four labels, which makes six columns. *)
Definition eleven_trades : list TradeEntry :=
  ten_trades ++ [mk_trade "long" 20 25 3 ["gap"; "news"]].

(** A trade whose type is spelled in capitals. *)
Definition capital_long_trade : TradeEntry :=
  mk_trade "LONG" 100 110 1 ["trend"].

(** A trade of the given size; the two zeros give two snapshots that
    compare equal without being identical. *)
Definition sized_trade (size : float) : TradeEntry :=
  {| entry_date := 0; symbol := "ACME";
     entry_price := B64.of_int 100;
     exit_price := B64.of_int 110;
     position_size := size;
     trade_type := "long";
     market_conditions := ["trend"];
     notes := "";
     chart_images := [] |}.

(** ** The remaining routes *)

(** [GET /]: the greeting. *)
Definition root (st : AppState) : AppState * string :=
  (st, "AI Trading Journal API").

(** [POST /trades/{trade_id}/images]: the upload is not stored; the name
    of the file is sent back. *)
Definition upload_chart_image (trade_id : Z) (filename : string) (st : AppState)
  : AppState * string :=
  (st, filename).

(** ** The service as a machine over requests

    One request per route; a request is handled against the two lists of
    the service and leaves them to the next request. *)

Section Service.

Variable set_union : list (list string) -> list string.
Variable random_state : Type.
Variable forest : random_state -> Z -> list (list num) -> list Z -> fit.

Inductive request : Type :=
| GetRoot
| PostTrade (trade : TradeEntry)
| GetTrades
| PostMarketCondition (condition : MarketCondition)
| GetMarketConditions
| PostImage (trade_id : Z) (filename : string)
| GetPerformance
| GetPatterns (rs : random_state).

Inductive response : Type :=
| Message (message : string)
| Trade (trade : TradeEntry)
| Trades (ts : list TradeEntry)
| Condition (condition : MarketCondition)
| Conditions (cs : list MarketCondition)
| Filename (filename : string)
| Performance (r : result TradeAnalysis)
| Patterns (r : result PatternReport).

Definition handle (req : request) (st : AppState) : AppState * response :=
  match req with
  | GetRoot => let (st', m) := root st in (st', Message m)
  | PostTrade t => let (st', t') := create_trade t st in (st', Trade t')
  | GetTrades => let (st', ts) := get_trades st in (st', Trades ts)
  | PostMarketCondition c =>
    let (st', c') := create_market_condition c st in (st', Condition c')
  | GetMarketConditions =>
    let (st', cs) := get_market_conditions st in (st', Conditions cs)
  | PostImage id f => let (st', f') := upload_chart_image id f st in (st', Filename f')
  | GetPerformance => (st, Performance (analyze_performance st))
  | GetPatterns rs =>
    (st, Patterns (analyze_patterns set_union random_state forest rs st))
  end.

(** The requests in turn; the responses in the same order. *)
Fixpoint run (reqs : list request) (st : AppState) : AppState * list response :=
  match reqs with
  | [] => (st, [])
  | req :: reqs' =>
    let (st1, resp) := handle req st in
    let (st2, resps) := run reqs' st1 in
    (st2, resp :: resps)
  end.

(** The trades and the conditions that a sequence of requests posts. *)
Definition posted_trades (reqs : list request) : list TradeEntry :=
  flat_map (fun req => match req with PostTrade t => [t] | _ => [] end) reqs.

Definition posted_conditions (reqs : list request) : list MarketCondition :=
  flat_map (fun req => match req with PostMarketCondition c => [c] | _ => [] end) reqs.

End Service.

Arguments GetRoot {random_state}.
Arguments PostTrade {random_state} trade.
Arguments GetTrades {random_state}.
Arguments PostMarketCondition {random_state} condition.
Arguments GetMarketConditions {random_state}.
Arguments PostImage {random_state} trade_id filename.
Arguments GetPerformance {random_state}.
Arguments GetPatterns {random_state} rs.
Arguments posted_trades {random_state} reqs.
Arguments posted_conditions {random_state} reqs.

(** The text of a success pattern. *)
Definition pattern_text (factor : string) : string :=
  ("High correlation between " ++ factor ++ " and profitable trades")%string.

(** A trade with the prices and the size of another and a type of its own. *)
Definition with_type (ty : string) (t : TradeEntry) : TradeEntry :=
  {| entry_date := entry_date t; symbol := symbol t;
     entry_price := entry_price t;
     exit_price := exit_price t;
     position_size := position_size t;
     trade_type := ty;
     market_conditions := market_conditions t;
     notes := notes t;
     chart_images := chart_images t |}.


(** *** Journals and requests for the further properties *)

(** A trade closed at its entry price. *)
Definition flat_trade : TradeEntry := mk_trade "long" 100 100 1 ["trend"].

(** A trade without market conditions. *)
Definition unlabelled_trade : TradeEntry := mk_trade "long" 10 20 1 [].





(** * Properties *)

(** ** Rounding *)

Lemma digits2_pos_size p : digits2_pos p = Pos.size p.
Proof. induction p; simpl; congruence. Qed.

Lemma Zdigits2_lt m k : 0 <= m < 2 ^ k -> 0 <= k -> Zdigits2 m <= k.
Proof.
  intros [H0 H1] Hk. destruct m as [|p|p]; simpl; try lia.
  rewrite digits2_pos_size.
  destruct (Z.le_gt_cases (Zpos (Pos.size p)) k) as [|Hgt]; trivial.
  exfalso.
  assert (H2 : 2 ^ k <= Zpos p).
  { pose proof (Pos.size_le p) as Hs.
    assert (2 ^ Zpos (Pos.size p) <= 2 * Zpos p).
    { rewrite <- Pos2Z.inj_pow. lia. }
    assert (2 ^ (k + 1) <= 2 ^ Zpos (Pos.size p)) by (apply Z.pow_le_mono_r; lia).
    rewrite Z.pow_add_r in H2 by lia. lia. }
  lia.
Qed.

Lemma shr_1_m mrs : 0 <= shr_m mrs -> shr_m (shr_1 mrs) = shr_m mrs / 2.
Proof.
  destruct mrs as [m r s]. simpl. intros H.
  destruct m as [|[p|p|]|p]; simpl; try lia; try reflexivity.
  - rewrite Pos2Z.inj_xI. apply Z.div_unique with 1; lia.
  - rewrite Pos2Z.inj_xO. apply Z.div_unique with 0; lia.
Qed.

Lemma iter_shr_1_m p : forall mrs,
  0 <= shr_m mrs ->
  shr_m (iter_pos shr_1 p mrs) = shr_m mrs / 2 ^ Zpos p.
Proof.
  induction p as [p IH | p IH |]; intros mrs H; simpl iter_pos.
  - assert (H1 : 0 <= shr_m (shr_1 mrs)).
    { rewrite shr_1_m by trivial. apply Z.div_pos; lia. }
    assert (H2 : 0 <= shr_m (iter_pos shr_1 p (shr_1 mrs))).
    { rewrite IH by trivial. apply Z.div_pos; lia. }
    rewrite IH, IH, shr_1_m by trivial.
    rewrite !Z.div_div by lia. f_equal.
    replace (Zpos p~1) with (1 + Zpos p + Zpos p) by lia.
    rewrite !Z.pow_add_r by lia. lia.
  - assert (H2 : 0 <= shr_m (iter_pos shr_1 p mrs)).
    { rewrite IH by trivial. apply Z.div_pos; lia. }
    rewrite IH, IH by trivial.
    rewrite !Z.div_div by lia. f_equal.
    replace (Zpos p~0) with (Zpos p + Zpos p) by lia.
    rewrite !Z.pow_add_r by lia. lia.
  - rewrite shr_1_m by trivial. reflexivity.
Qed.

Lemma shr_record_of_loc_m m l : shr_m (shr_record_of_loc m l) = m.
Proof. destruct l as [|[]]; reflexivity. Qed.

(** The mantissa and exponent after [shr]. *)
Lemma shr_spec mrs e n :
  0 <= shr_m mrs ->
  shr_m (fst (shr mrs e n)) = shr_m mrs / 2 ^ Z.max 0 n
  /\ snd (shr mrs e n) = e + Z.max 0 n.
Proof.
  intros H. destruct n as [|p|p]; simpl.
  - rewrite Z.div_1_r. lia.
  - rewrite iter_shr_1_m by trivial. split; [reflexivity | lia].
  - rewrite Z.div_1_r. lia.
Qed.

Lemma round_nearest_even_bounds m l :
  m <= round_nearest_even m l <= m + 1.
Proof.
  destruct l as [|[]]; simpl; try lia. destruct (Z.even m); lia.
Qed.

Lemma shr_fexp_spec m e l :
  0 <= m ->
  let e' := Z.max e (fexp B64.prec B64.emax (Zdigits2 m + e)) in
  shr_m (fst (shr_fexp B64.prec B64.emax m e l)) = m / 2 ^ (e' - e)
  /\ snd (shr_fexp B64.prec B64.emax m e l) = e'.
Proof.
  intros H e'. unfold shr_fexp.
  destruct (shr_spec (shr_record_of_loc m l) e
              (fexp B64.prec B64.emax (Zdigits2 m + e) - e)) as [Hm He].
  { rewrite shr_record_of_loc_m. trivial. }
  rewrite shr_record_of_loc_m in Hm. rewrite Hm, He. subst e'.
  split; [f_equal; f_equal |]; lia.
Qed.

(** What [binary_round_aux] returns on a mantissa that is not negative:
    a first shift to the exponent [e1], the rounding of the mantissa by
    at most one unit, and a second shift to the exponent [e2]. *)
Lemma binary_round_aux_spec sx mx ex lx :
  0 <= mx ->
  exists m1 e1 m2 e2,
    e1 = Z.max ex (fexp B64.prec B64.emax (Zdigits2 mx + ex))
    /\ mx / 2 ^ (e1 - ex) <= m1 <= mx / 2 ^ (e1 - ex) + 1
    /\ e2 = Z.max e1 (fexp B64.prec B64.emax (Zdigits2 m1 + e1))
    /\ m2 = m1 / 2 ^ (e2 - e1)
    /\ binary_round_aux B64.prec B64.emax sx mx ex lx =
       match m2 with
       | Z0 => S754_zero sx
       | Zpos m => if e2 <=? B64.emax - B64.prec
                   then S754_finite sx m e2 else S754_infinity sx
       | Zneg _ => S754_nan
       end.
Proof.
  intros H. unfold binary_round_aux.
  destruct (shr_fexp_spec mx ex lx H) as [Hm1 He1].
  destruct (shr_fexp B64.prec B64.emax mx ex lx) as [mrs' e'].
  simpl in Hm1, He1.
  pose proof (round_nearest_even_bounds (shr_m mrs') (loc_of_shr_record mrs')) as Hr.
  set (m1 := round_nearest_even (shr_m mrs') (loc_of_shr_record mrs')) in *.
  assert (H1 : 0 <= m1).
  { rewrite Hm1 in Hr. assert (0 <= mx / 2 ^ (Z.max ex (fexp B64.prec B64.emax (Zdigits2 mx + ex)) - ex)) by (apply Z.div_pos; lia). lia. }
  destruct (shr_fexp_spec m1 e' loc_Exact H1) as [Hm2 He2].
  destruct (shr_fexp B64.prec B64.emax m1 e' loc_Exact) as [mrs'' e''].
  simpl in Hm2, He2.
  exists m1, e', (shr_m mrs''), e''.
  rewrite <- He1 in Hm1. rewrite <- Hm1.
  repeat split; try lia; try assumption.
  subst e''. exact Hm2.
Qed.

Lemma fexp_le e : fexp B64.prec B64.emax e = Z.max (e - 53) (-1074).
Proof. reflexivity. Qed.

Lemma Zdigits2_nonneg m : 0 <= Zdigits2 m.
Proof. destruct m; simpl; lia. Qed.

(** A quotient below one rounds into the unit interval. *)
Lemma binary_round_aux_below_one mx ex lx :
  0 <= mx < 2 ^ (- ex) -> ex <= -53 ->
  binary_round_aux B64.prec B64.emax false mx ex lx = S754_zero false
  \/ exists m e,
       binary_round_aux B64.prec B64.emax false mx ex lx = S754_finite false m e
       /\ e <= -52 /\ Zpos m <= 2 ^ (- e).
Proof.
  intros [H0 Hlt] Hex.
  destruct (binary_round_aux_spec false mx ex lx H0)
    as (m1 & e1 & m2 & e2 & He1 & Hm1 & He2 & Hm2 & Hr).
  rewrite Hr. clear Hr.
  rewrite fexp_le in He1, He2.
  assert (Hd : Zdigits2 mx <= - ex) by (apply Zdigits2_lt; lia).
  pose proof (Zdigits2_nonneg mx) as Hd0.
  assert (He1' : ex <= e1 <= -53) by lia.
  assert (Hq : mx / 2 ^ (e1 - ex) < 2 ^ (- e1)).
  { apply Z.div_lt_upper_bound; [apply Z.pow_pos_nonneg; lia |].
    rewrite <- Z.pow_add_r by lia.
    replace (e1 - ex + - e1) with (- ex) by lia. trivial. }
  assert (Hq0 : 0 <= mx / 2 ^ (e1 - ex)) by (apply Z.div_pos; [|apply Z.pow_pos_nonneg]; lia).
  assert (Hm1' : 0 <= m1 <= 2 ^ (- e1)) by lia.
  assert (Hd1 : Zdigits2 m1 <= - e1 + 1).
  { apply Zdigits2_lt; [|lia]. rewrite Z.pow_add_r, Z.pow_1_r by lia.
    assert (0 < 2 ^ (- e1)) by (apply Z.pow_pos_nonneg; lia). lia. }
  pose proof (Zdigits2_nonneg m1) as Hd10.
  assert (He2' : e1 <= e2 <= -52) by lia.
  assert (Hm2' : 0 <= m2 <= 2 ^ (- e2)).
  { subst m2. split; [apply Z.div_pos; [|apply Z.pow_pos_nonneg]; lia |].
    apply Z.div_le_upper_bound; [apply Z.pow_pos_nonneg; lia |].
    rewrite <- Z.pow_add_r by lia.
    replace (e2 - e1 + - e2) with (- e1) by lia. lia. }
  destruct m2 as [|m|m]; [left; reflexivity | right | lia].
  exists m, e2.
  destruct (Z.leb_spec e2 (B64.emax - B64.prec)) as [_ | Hbad].
  - repeat split; lia.
  - unfold B64.emax, B64.prec in Hbad. lia.
Qed.

Lemma Zdigits2_mono a b : 0 <= a <= b -> Zdigits2 a <= Zdigits2 b.
Proof.
  intros H. apply Zdigits2_lt; [|apply Zdigits2_nonneg].
  split; [lia|].
  destruct b as [|p|p]; simpl; try lia.
  rewrite digits2_pos_size.
  pose proof (Pos.size_gt p) as Hs.
  assert (Hz : Zpos p < Zpos (2 ^ Pos.size p)) by lia.
  rewrite Pos2Z.inj_pow in Hz. lia.
Qed.

Lemma div_pos_below_one (a b : positive) :
  (a <= b)%positive ->
  below_one (B64.div (S754_finite false a 0) (S754_finite false b 0)).
Proof.
  intros Hab. unfold B64.div, SFdiv, SFdiv_core_binary.
  rewrite !Z.add_0_r, Z.sub_0_r, Z.sub_0_l.
  assert (Hd : Zdigits2 (Zpos a) <= Zdigits2 (Zpos b)) by (apply Zdigits2_mono; lia).
  set (e' := Z.min (fexp B64.prec B64.emax (Zdigits2 (Z.pos a) - Zdigits2 (Z.pos b))) 0).
  assert (He' : e' <= -53) by (subst e'; rewrite fexp_le; lia).
  destruct (- e') as [|s|s] eqn:Hs; try lia.
  rewrite Z.shiftl_mul_pow2 by lia.
  assert (Hpow : 0 < 2 ^ Zpos s) by (apply Z.pow_pos_nonneg; lia).
  assert (Hq : fst (Z.div_eucl (Zpos a * 2 ^ Zpos s) (Zpos b))
               = Zpos a * 2 ^ Zpos s / Zpos b) by reflexivity.
  assert (Hr : snd (Z.div_eucl (Zpos a * 2 ^ Zpos s) (Zpos b))
               = (Zpos a * 2 ^ Zpos s) mod Zpos b) by reflexivity.
  destruct (Z.div_eucl (Zpos a * 2 ^ Zpos s) (Zpos b)) as [q r].
  cbn [fst snd] in Hq, Hr.
  destruct (Pos.eq_dec a b) as [<- | Hne].
  - rewrite (Z.mul_comm (Zpos a)), Z.div_mul in Hq by lia.
    rewrite (Z.mul_comm (Zpos a)), Z.mod_mul in Hr by lia.
    subst q r.
    assert (He : e' = -53) by (subst e'; rewrite Z.sub_diag; reflexivity).
    assert (s = 53%positive) as -> by lia.
    rewrite He.
    replace (new_location (Zpos a) 0) with loc_Exact
      by (unfold new_location; destruct (Z.even (Zpos a)); reflexivity).
    right. exists (2 ^ 52)%positive, (-52). vm_compute. intuition discriminate.
  - assert (Hlt : Zpos a < Zpos b) by lia.
    assert (Hq' : 0 <= q < 2 ^ (- e')).
    { rewrite Hs, Hq. split.
      - apply Z.div_pos; lia.
      - apply Z.div_lt_upper_bound; [lia|]. nia. }
    change (xorb false false) with false.
    destruct (binary_round_aux_below_one q e' (new_location (Zpos b) r) Hq' He')
      as [-> | (m & e & -> & H1 & H2)]; [left; reflexivity | right].
    exists m, e. auto.
Qed.

Lemma below_one_unit q : below_one q -> in_unit_interval q.
Proof.
  intros [-> | (m & e & -> & He & Hm)]; [split; reflexivity |].
  split; [reflexivity |].
  unfold B64.leb, SFleb, B64.of_int.
  change (binary_normalize B64.prec B64.emax 1 0 false)
    with (S754_finite false (2 ^ 52) (-52)).
  cbn [SFcompare].
  destruct (Z.compare_spec e (-52)) as [-> | Hlt | Hgt]; try reflexivity; try lia.
  change (2 ^ (- (-52))) with (Zpos (2 ^ 52)) in Hm.
  rewrite Pos.compare_cont_spec. cbn [Pos.switch_Eq].
  destruct (Pos.compare_spec m (2 ^ 52)); try reflexivity. lia.
Qed.

Lemma int_truediv_below_one a b :
  0 <= a <= b -> 0 < b ->
  exists q, int_truediv a b = Ok q /\ below_one q.
Proof.
  intros Ha Hb. unfold int_truediv.
  destruct b as [|b|b]; try lia.
  destruct a as [|a|a]; try lia.
  - exists (S754_zero false). split; [reflexivity | left; reflexivity].
  - change (Z.pos a <? 0) with false. change (Z.pos b <? 0) with false.
    cbn [Z.abs Z.to_pos].
    pose proof (div_pos_below_one a b ltac:(lia)) as Hq.
    destruct Hq as [Hq | (m & e & Hq & H)]; rewrite Hq.
    + eexists; split; [reflexivity | left; reflexivity].
    + eexists; split; [reflexivity | right; eauto].
Qed.

Lemma Zdigits2_lower m : 0 < m -> 2 ^ (Zdigits2 m - 1) <= m.
Proof.
  intros H. destruct m as [|p|p]; try lia.
  change (Zdigits2 (Zpos p)) with (Zpos (digits2_pos p)).
  rewrite digits2_pos_size.
  pose proof (Pos.size_le p) as Hs.
  assert (Hz : Zpos (2 ^ Pos.size p) <= 2 * Zpos p) by lia.
  rewrite Pos2Z.inj_pow in Hz.
  replace (Zpos (Pos.size p)) with (1 + (Zpos (Pos.size p) - 1)) in Hz by lia.
  rewrite Z.pow_add_r, Z.pow_1_r in Hz by lia. lia.
Qed.

(** Shifting a positive mantissa to its rounding exponent leaves it
    positive when the exponent is that of a subnormal at least. *)
Lemma shift_positive m e :
  0 < m -> -1074 <= e ->
  0 < m / 2 ^ (Z.max e (fexp B64.prec B64.emax (Zdigits2 m + e)) - e).
Proof.
  intros Hm He. rewrite fexp_le.
  pose proof (Zdigits2_lower m Hm) as Hl.
  destruct (Z.max_spec e (Z.max (Zdigits2 m + e - 53) (-1074)))
    as [[H1 ->] | [H1 ->]].
  - assert (Hk : Z.max (Zdigits2 m + e - 53) (-1074) - e = Zdigits2 m - 53) by lia.
    rewrite Hk.
    apply Z.div_str_pos. split; [apply Z.pow_pos_nonneg; lia |].
    apply Z.le_trans with (2 ^ (Zdigits2 m - 1)); trivial.
    apply Z.pow_le_mono_r; lia.
  - rewrite Z.sub_diag, Z.div_1_r. trivial.
Qed.

Lemma binary_round_aux_positive mx ex lx :
  0 < mx -> -1074 <= ex ->
  positive_float (binary_round_aux B64.prec B64.emax false mx ex lx).
Proof.
  intros Hm He.
  destruct (binary_round_aux_spec false mx ex lx ltac:(lia))
    as (m1 & e1 & m2 & e2 & He1 & Hm1 & He2 & Hm2 & Hr).
  rewrite Hr. clear Hr.
  pose proof (shift_positive mx ex Hm He) as H1. rewrite <- He1 in H1.
  assert (Hm1' : 0 < m1) by lia.
  assert (He1' : -1074 <= e1) by lia.
  pose proof (shift_positive m1 e1 Hm1' He1') as H2.
  rewrite <- He2, <- Hm2 in H2.
  destruct m2 as [|m|m]; try lia.
  destruct (e2 <=? B64.emax - B64.prec); [right | left; reflexivity].
  exists m, e2. split; [reflexivity | lia].
Qed.

(** Every finite result of a rounding has a representable exponent. *)
Lemma binary_round_aux_exponent sx mx ex lx s m e :
  0 <= mx ->
  binary_round_aux B64.prec B64.emax sx mx ex lx = S754_finite s m e ->
  -1074 <= e.
Proof.
  intros Hm.
  destruct (binary_round_aux_spec sx mx ex lx Hm)
    as (m1 & e1 & m2 & e2 & He1 & Hm1 & He2 & Hm2 & Hr).
  rewrite Hr. rewrite fexp_le in He2.
  destruct m2; try discriminate.
  destruct (e2 <=? B64.emax - B64.prec); try discriminate.
  intros [= _ _ <-]. lia.
Qed.

Lemma mul_exponent x y s m e :
  B64.mul x y = S754_finite s m e -> -1074 <= e.
Proof.
  destruct x as [sx | sx | | sx mx ex], y as [sy | sy | | sy my ey];
    try discriminate.
  apply binary_round_aux_exponent. lia.
Qed.

Lemma shl_align_exponent mx ex ex' :
  -1074 <= ex -> -1074 <= ex' -> -1074 <= snd (shl_align mx ex ex').
Proof.
  intros. unfold shl_align. destruct (ex' - ex); simpl; lia.
Qed.

Lemma add_positive x y :
  positive_float x -> positive_float y -> positive_float (B64.add x y).
Proof.
  intros [-> | (mx & ex & -> & Hx)] [-> | (my & ey & -> & Hy)].
  - left; reflexivity.
  - left; reflexivity.
  - left; reflexivity.
  - unfold B64.add, SFadd, cond_Zopp.
    rewrite <- Pos2Z.inj_add. unfold binary_normalize, binary_round.
    set (p := (fst (shl_align mx ex (Z.min ex ey)) + fst (shl_align my ey (Z.min ex ey)))%positive).
    pose proof (shl_align_exponent p (Z.min ex ey)
                  (fexp B64.prec B64.emax (Zpos (digits2_pos p) + Z.min ex ey))
                  ltac:(lia) ltac:(rewrite fexp_le; lia)) as Hs.
    destruct (shl_align p (Z.min ex ey) _) as [mz ez]. simpl in Hs.
    apply binary_round_aux_positive; lia.
Qed.

(** ** Comparison of floats *)

Ltac compare_cases :=
  change (Pos.compare_cont Eq) with Pos.compare;
  repeat match goal with
  | |- context [Z.compare ?a ?b] => destruct (Z.compare_spec a b)
  | |- context [Pos.compare ?a ?b] => destruct (Pos.compare_spec a b)
  end;
  cbn; intros; subst;
  try reflexivity; try discriminate; try lia; auto.

Tactic Notation "float_cases" constr(x) ident(s) ident(m) ident(e) :=
  destruct x as [s | s | | s m e]; try (destruct s).

Lemma ltb_false_leb x y :
  B64.is_nan x = false -> B64.is_nan y = false ->
  B64.ltb x y = false -> B64.leb y x = true.
Proof.
  unfold B64.ltb, B64.leb, SFltb, SFleb.
  float_cases x sx mx ex; float_cases y sy my ey;
    try discriminate; intros _ _; cbn [SFcompare]; compare_cases.
Qed.

Lemma leb_trans x y z :
  B64.leb x y = true -> B64.leb y z = true -> B64.leb x z = true.
Proof.
  unfold B64.leb, SFleb.
  float_cases x sx mx ex; float_cases y sy my ey; float_cases z sz mz ez;
    cbn [SFcompare]; compare_cases.
Qed.

Lemma leb_cases x y :
  B64.leb y x = true -> B64.ltb y x = true \/ B64.eqb x y = true.
Proof.
  unfold B64.leb, B64.ltb, B64.eqb, SFleb, SFltb, SFeqb.
  float_cases x sx mx ex; float_cases y sy my ey;
    cbn [SFcompare]; compare_cases.
Qed.

Lemma ltb_leb x y : B64.ltb x y = true -> B64.leb x y = true.
Proof.
  unfold B64.leb, B64.ltb, SFleb, SFltb.
  destruct (SFcompare x y) as [[]|]; auto.
Qed.

Lemma eqb_leb x y : B64.eqb x y = true -> B64.leb y x = true.
Proof.
  unfold B64.leb, B64.eqb, SFleb, SFeqb.
  float_cases x sx mx ex; float_cases y sy my ey;
    cbn [SFcompare]; compare_cases.
Qed.

(** ** The stable ranking *)

Section RankingFacts.
Context {A : Type} (key : A -> float).

Lemma insert_desc_decorate x s :
  insert_desc (decorate key x) (map (decorate key) s) = map (decorate key) (insert_by key x s).
Proof.
  induction s as [|y s IH]; [reflexivity|].
  cbn [map insert_desc insert_by decorate fst] in *.
  destruct (B64.ltb (key x) (key y)); [|reflexivity].
  cbn [map]. f_equal. exact IH.
Qed.

Lemma sorted_reverse_decorate l :
  sorted_reverse (map (decorate key) l) = map (decorate key) (sort_by key l).
Proof.
  induction l as [|x l IH]; [reflexivity|].
  cbn [map]. unfold sorted_reverse in *. cbn [fold_right].
  rewrite IH. apply insert_desc_decorate.
Qed.

Lemma insert_by_perm x s : Permutation (x :: s) (insert_by key x s).
Proof.
  induction s as [|y s IH]; cbn [insert_by]; [reflexivity|].
  destruct (B64.ltb (key x) (key y)); [|reflexivity].
  rewrite perm_swap. constructor. exact IH.
Qed.

Lemma sort_by_perm l : Permutation l (sort_by key l).
Proof.
  induction l as [|x l IH]; [constructor|].
  change (sort_by key (x :: l)) with (insert_by key x (sort_by key l)).
  rewrite <- insert_by_perm. constructor. exact IH.
Qed.

Lemma before_cons (l : list A) x a b : before l a b -> before (x :: l) a b.
Proof.
  intros (l1 & l2 & l3 & ->). exists (x :: l1), l2, l3. reflexivity.
Qed.

Lemma before_head (l : list A) x z : In z l -> before (x :: l) x z.
Proof.
  intros H. destruct (in_split _ _ H) as (l2 & l3 & ->).
  exists [], l2, l3. reflexivity.
Qed.

Lemma ranks_before_cons l x a b :
  ranks_before key l a b -> ranks_before key (x :: l) a b.
Proof.
  intros [H | [H1 H2]]; [left | right]; auto using before_cons.
Qed.

Lemma ranks_before_ge l a b : ranks_before key l a b -> B64.leb (key b) (key a) = true.
Proof.
  intros [H | [H _]]; [apply ltb_leb | apply eqb_leb]; trivial.
Qed.

Lemma StronglySorted_weaken (R R' : A -> A -> Prop) s :
  (forall a b, R a b -> R' a b) -> StronglySorted R s -> StronglySorted R' s.
Proof.
  intros HR Hs. induction Hs as [|y s Hs IH Hy]; constructor; trivial.
  eapply Forall_impl; [|exact Hy]. intros z. apply HR.
Qed.

Lemma insert_by_sorted l x s :
  B64.is_nan (key x) = false ->
  Forall (fun y => B64.is_nan (key y) = false) s ->
  (forall z, In z s -> In z l) ->
  StronglySorted (ranks_before key l) s ->
  StronglySorted (ranks_before key (x :: l)) (insert_by key x s).
Proof.
  intros Hx Hnan Hin Hs.
  induction Hs as [|y s Hs IH Hy]; cbn [insert_by].
  - repeat constructor.
  - inversion Hnan as [|? ? Hny Hns]; subst.
    destruct (B64.ltb (key x) (key y)) eqn:Hlt.
    + constructor.
      * apply IH; trivial. intros z Hz. apply Hin. right; trivial.
      * rewrite <- insert_by_perm. constructor.
        -- left; trivial.
        -- eapply Forall_impl; [|exact Hy]. intros z. apply ranks_before_cons.
    + assert (Hge : B64.leb (key y) (key x) = true) by (apply ltb_false_leb; trivial).
      constructor.
      * apply StronglySorted_weaken with (R := ranks_before key l).
        -- intros a b. apply ranks_before_cons.
        -- constructor; trivial.
      * apply Forall_forall. intros z Hz.
        assert (Hzx : B64.leb (key z) (key x) = true).
        { destruct Hz as [<- | Hz]; trivial.
          rewrite Forall_forall in Hy.
          eapply leb_trans; [|exact Hge].
          eapply ranks_before_ge. apply Hy; trivial. }
        destruct (leb_cases _ _ Hzx) as [H | H]; [left; trivial | right].
        split; trivial. apply before_head. auto.
Qed.

Lemma sort_by_sorted l :
  Forall (fun y => B64.is_nan (key y) = false) l ->
  StronglySorted (ranks_before key l) (sort_by key l).
Proof.
  induction 1 as [|x l Hx Hl IH]; [constructor|].
  change (sort_by key (x :: l)) with (insert_by key x (sort_by key l)).
  apply insert_by_sorted; trivial.
  - rewrite <- sort_by_perm. trivial.
  - intros z. apply Permutation_in. symmetry. apply sort_by_perm.
Qed.

End RankingFacts.

(** ** The dictionary of outcomes *)

Lemma mem_In k l : mem k l = true <-> In k l.
Proof.
  unfold mem. rewrite existsb_exists. split.
  - intros (x & Hx & E). apply String.eqb_eq in E. subst. trivial.
  - intros H. exists k. split; trivial. apply String.eqb_refl.
Qed.

Lemma record_trade_events d t :
  record_trade d t
  = record_all d (map (fun c => (c, winning t)) (market_conditions t)).
Proof.
  unfold record_trade, record_all.
  revert d. induction (market_conditions t) as [|c cs IH]; intros d; [reflexivity|].
  cbn [map fold_left fst snd]. apply IH.
Qed.

Lemma condition_performance_events ts :
  condition_performance ts = record_all [] (events ts).
Proof.
  unfold condition_performance. generalize (@nil (string * list bool)) as d.
  induction ts as [|t ts IH]; intros d; [reflexivity|].
  cbn [fold_left events flat_map]. rewrite IH, record_trade_events.
  unfold record_all. rewrite fold_left_app. reflexivity.
Qed.

Lemma dict_append_keys d k b :
  map fst (dict_append d k b) = add_key (map fst d) k.
Proof.
  unfold add_key, mem. induction d as [|[k' v] d IH]; [reflexivity|].
  cbn [dict_append map fst existsb].
  destruct (String.eqb k k'); [reflexivity|].
  cbn [map fst orb]. rewrite IH.
  destruct (existsb (String.eqb k) (map fst d)); reflexivity.
Qed.

Lemma record_all_keys evs : forall d,
  map fst (record_all d evs) = fold_left add_key (map fst evs) (map fst d).
Proof.
  unfold record_all. induction evs as [|ev evs IH]; intros d; [reflexivity|].
  cbn [fold_left map]. rewrite IH, dict_append_keys. reflexivity.
Qed.

Lemma events_keys ts : map fst (events ts) = List.concat (map market_conditions ts).
Proof.
  induction ts as [|t ts IH]; [reflexivity|].
  cbn [events flat_map map List.concat]. rewrite map_app, map_map. cbn [fst].
  rewrite map_id. f_equal. exact IH.
Qed.

Lemma condition_performance_keys ts :
  map fst (condition_performance ts) = first_seen (map market_conditions ts).
Proof.
  rewrite condition_performance_events, record_all_keys, events_keys. reflexivity.
Qed.

Lemma add_key_NoDup seen k : NoDup seen -> NoDup (add_key seen k).
Proof.
  intros H. unfold add_key. destruct (mem k seen) eqn:E; trivial.
  apply NoDup_app; trivial.
  - repeat constructor. intros [].
  - intros x Hx [<- | []]. apply mem_In in Hx. congruence.
Qed.

Lemma add_key_In seen k x : In x (add_key seen k) <-> In x seen \/ x = k.
Proof.
  unfold add_key. destruct (mem k seen) eqn:E.
  - apply mem_In in E. split; [auto | intros [H | ->]; trivial].
  - rewrite in_app_iff. cbn [In]. intuition.
Qed.

Lemma fold_add_key_NoDup l : forall seen,
  NoDup seen -> NoDup (fold_left add_key l seen).
Proof.
  induction l as [|k l IH]; intros seen H; trivial.
  cbn [fold_left]. apply IH, add_key_NoDup, H.
Qed.

Lemma fold_add_key_In l x : forall seen,
  In x (fold_left add_key l seen) <-> In x seen \/ In x l.
Proof.
  induction l as [|k l IH]; intros seen; cbn [fold_left In]; [tauto|].
  rewrite IH, add_key_In. intuition.
Qed.

Lemma first_seen_NoDup ls : NoDup (first_seen ls).
Proof. apply fold_add_key_NoDup. constructor. Qed.

Lemma first_seen_In ls x :
  In x (first_seen ls) <-> exists l, In l ls /\ In x l.
Proof.
  unfold first_seen. rewrite fold_add_key_In, in_concat. cbn [In]. 
  split; [intros [[] | H]; trivial | auto].
Qed.

Lemma value_of_In d k v :
  NoDup (map fst d) -> In (k, v) d -> value_of d k = v.
Proof.
  induction d as [|[k' v'] d IH]; intros Hnd Hin; [destruct Hin|].
  cbn [map fst] in Hnd. inversion Hnd as [|? ? Hk Hd]; subst.
  cbn [value_of]. destruct Hin as [[= -> ->] | Hin].
  - rewrite String.eqb_refl. reflexivity.
  - destruct (String.eqb_spec k k') as [-> | _]; [|auto].
    exfalso. apply Hk. apply (in_map fst) in Hin. exact Hin.
Qed.

Lemma value_of_dict_append d k' b k :
  value_of (dict_append d k' b) k
  = if String.eqb k k' then value_of d k ++ [b] else value_of d k.
Proof.
  induction d as [|[k0 v] d IH]; cbn [dict_append value_of].
  - destruct (String.eqb k k'); reflexivity.
  - destruct (String.eqb_spec k' k0) as [-> | Hne]; cbn [value_of].
    + destruct (String.eqb k k0); reflexivity.
    + rewrite IH. destruct (String.eqb_spec k k0) as [-> | _]; [|reflexivity].
      destruct (String.eqb_spec k0 k'); [congruence | reflexivity].
Qed.

Lemma value_of_record_all evs k : forall d,
  value_of (record_all d evs) k = value_of d k ++ outcomes k evs.
Proof.
  unfold record_all, outcomes.
  induction evs as [|[k' b] evs IH]; intros d; cbn [fold_left filter map fst snd].
  - rewrite app_nil_r. reflexivity.
  - rewrite IH, value_of_dict_append.
    destruct (String.eqb k k'); cbn [map snd]; [|reflexivity].
    rewrite <- app_assoc. reflexivity.
Qed.

Lemma condition_performance_NoDup ts : NoDup (map fst (condition_performance ts)).
Proof. rewrite condition_performance_keys. apply first_seen_NoDup. Qed.

Lemma condition_performance_value ts k v :
  In (k, v) (condition_performance ts) -> v = outcomes k (events ts).
Proof.
  intros H. rewrite <- (value_of_In _ _ _ (condition_performance_NoDup ts) H).
  rewrite condition_performance_events, value_of_record_all. reflexivity.
Qed.

Lemma len_app {A} (l1 l2 : list A) : len (l1 ++ l2) = len l1 + len l2.
Proof. unfold len. rewrite length_app. lia. Qed.

Lemma len_nonneg {A} (l : list A) : 0 <= len l.
Proof. unfold len. lia. Qed.

Lemma sum_bools_acc l : forall a,
  fold_left (fun acc (b : bool) => acc + (if b then 1 else 0)) l a
  = a + len (filter (fun b => b) l).
Proof.
  induction l as [|b l IH]; intros a; cbn [fold_left filter].
  - unfold len. simpl. lia.
  - rewrite IH. destruct b; unfold len; cbn [List.length]; lia.
Qed.

Lemma sum_bools_filter l : sum_bools l = len (filter (fun b => b) l).
Proof. unfold sum_bools. rewrite sum_bools_acc. lia. Qed.

Lemma sum_bools_bounds l : 0 <= sum_bools l <= len l.
Proof.
  rewrite sum_bools_filter. unfold len. pose proof (filter_length_le (fun b => b) l). lia.
Qed.

Lemma sum_bools_app l1 l2 : sum_bools (l1 ++ l2) = sum_bools l1 + sum_bools l2.
Proof. rewrite !sum_bools_filter, filter_app, len_app. reflexivity. Qed.

Lemma outcomes_app k e1 e2 : outcomes k (e1 ++ e2) = outcomes k e1 ++ outcomes k e2.
Proof. unfold outcomes. rewrite filter_app, map_app. reflexivity. Qed.

Lemma outcomes_trade k b cs :
  outcomes k (map (fun c => (c, b)) cs) = map (fun _ => b) (filter (String.eqb k) cs).
Proof.
  unfold outcomes. induction cs as [|c cs IH]; [reflexivity|].
  cbn [map filter fst]. destruct (String.eqb k c); cbn [map snd]; congruence.
Qed.

Lemma sum_bools_const b {A} (l : list A) :
  sum_bools (map (fun _ => b) l) = if b then len l else 0.
Proof.
  rewrite sum_bools_filter. induction l as [|x l IH]; cbn [map filter].
  - destruct b; reflexivity.
  - destruct b; cbn [filter]; trivial.
    unfold len in *. cbn [List.length]. lia.
Qed.

Lemma len_map {A B} (f : A -> B) l : len (map f l) = len l.
Proof. unfold len. rewrite length_map. reflexivity. Qed.

Lemma len_outcomes k ts : len (outcomes k (events ts)) = occurrences k ts.
Proof.
  unfold occurrences. induction ts as [|t ts IH]; [reflexivity|].
  cbn [events flat_map]. rewrite outcomes_app, !len_app, outcomes_trade, len_map.
  f_equal. exact IH.
Qed.

Lemma sum_outcomes k ts :
  sum_bools (outcomes k (events ts)) = occurrences k (filter winning ts).
Proof.
  unfold occurrences. induction ts as [|t ts IH]; [reflexivity|].
  cbn [events flat_map filter].
  rewrite outcomes_app, sum_bools_app, outcomes_trade, sum_bools_const.
  fold (events ts). rewrite IH.
  destruct (winning t); cbn [flat_map]; [rewrite len_app|]; reflexivity.
Qed.

Lemma filter_eqb_NoDup k cs :
  NoDup cs -> filter (String.eqb k) cs = if mem k cs then [k] else [].
Proof.
  unfold mem. induction 1 as [|c cs Hc Hcs IH]; [reflexivity|].
  cbn [filter existsb]. destruct (String.eqb_spec k c) as [<- | Hne]; cbn [orb].
  - rewrite IH. destruct (existsb (String.eqb k) cs) eqn:E; trivial.
    exfalso. apply Hc. apply mem_In. exact E.
  - exact IH.
Qed.

Lemma occurrences_NoDup k ts :
  Forall (fun t => NoDup (market_conditions t)) ts ->
  occurrences k ts = len (filter (carries k) ts).
Proof.
  unfold occurrences. induction 1 as [|t ts Ht Hts IH]; [reflexivity|].
  cbn [flat_map filter]. rewrite len_app, IH, filter_eqb_NoDup by trivial.
  unfold carries at 2. destruct (mem k (market_conditions t)).
  - unfold len. cbn [List.length]. lia.
  - reflexivity.
Qed.

(** ** The pools *)

Lemma lt0_shape z :
  lt0 z = true ->
  z = S754_infinity true \/ exists m e, z = S754_finite true m e.
Proof.
  unfold lt0, B64.ltb, SFltb.
  destruct z as [s | s | | s m e]; try (destruct s); cbn; try discriminate; eauto.
Qed.

Lemma gt0_shape z :
  gt0 z = true ->
  z = S754_infinity false \/ exists m e, z = S754_finite false m e.
Proof.
  unfold gt0, B64.ltb, SFltb.
  destruct z as [s | s | | s m e]; try (destruct s); cbn; try discriminate; eauto.
Qed.

(** A profit is neither a loss nor break-even. *)
Lemma gt0_exclusive z :
  gt0 z = true -> lt0 z = false /\ B64.eqb z (B64.of_int 0) = false.
Proof.
  intros H. destruct (gt0_shape z H) as [-> | (m & e & ->)]; split; reflexivity.
Qed.

Lemma not_gt0 z :
  lt0 z = true \/ B64.eqb z (B64.of_int 0) = true -> gt0 z = false.
Proof.
  destruct (gt0 z) eqn:E; trivial.
  destruct (gt0_exclusive z E) as [H1 H2]. intros [H | H]; congruence.
Qed.

Lemma loss_positive x y :
  lt0 (B64.mul x y) = true -> positive_float (B64.abs (B64.mul x y)).
Proof.
  intros H. destruct (lt0_shape _ H) as [E | (m & e & E)]; rewrite E.
  - left; reflexivity.
  - right. exists m, e. split; [reflexivity|]. eapply mul_exponent; eauto.
Qed.

Lemma loss_pool_positive ts : Forall positive_float (loss_pool ts).
Proof.
  unfold loss_pool. apply Forall_forall. intros x Hx.
  apply in_map_iff in Hx. destruct Hx as (t & <- & Ht).
  apply filter_In in Ht. destruct Ht as [_ Ht].
  apply loss_positive. exact Ht.
Qed.

Lemma fold_add_positive l : forall a,
  positive_float a -> Forall positive_float l ->
  positive_float (fold_left B64.add l a).
Proof.
  induction l as [|x l IH]; intros a Ha Hl; trivial.
  inversion Hl; subst. cbn [fold_left]. apply IH; trivial.
  apply add_positive; trivial.
Qed.

Lemma add_zero_positive x :
  positive_float x -> B64.add (B64.of_int 0) x = x.
Proof. intros [-> | (m & e & -> & _)]; reflexivity. Qed.

Lemma py_sum_positive l :
  l <> [] -> Forall positive_float l -> positive_float (py_sum l).
Proof.
  intros Hne Hl. destruct l as [|x l]; [congruence|].
  inversion Hl; subst. unfold py_sum. cbn [fold_left].
  rewrite add_zero_positive by trivial. apply fold_add_positive; trivial.
Qed.

Lemma positive_abs x : positive_float x -> B64.abs x = x /\ B64.is_zero x = false.
Proof. intros [-> | (m & e & -> & _)]; split; reflexivity. Qed.

Lemma nonempty_spec {A} (l : list A) : nonempty l = true <-> l <> [].
Proof. destruct l; cbn; split; congruence. Qed.

(** The quotient of the pools never divides by zero. *)
Lemma profit_factor_defined ts :
  nonempty (loss_pool ts) = true ->
  float_truediv (py_sum (profit_pool ts)) (B64.abs (py_sum (loss_pool ts)))
  = Ok (B64.div (py_sum (profit_pool ts)) (py_sum (loss_pool ts))).
Proof.
  intros H. apply nonempty_spec in H.
  pose proof (py_sum_positive _ H (loss_pool_positive ts)) as Hp.
  destruct (positive_abs _ Hp) as [Ha Hz].
  unfold float_truediv. rewrite Ha, Hz. reflexivity.
Qed.

(** ** The rates *)

Lemma dict_append_nonempty d k b :
  Forall (fun x => snd x <> []) d ->
  Forall (fun x => snd x <> []) (dict_append d k b).
Proof.
  induction 1 as [|[k' v] d Hv Hd IH]; cbn [dict_append].
  - repeat constructor. cbn. discriminate.
  - destruct (String.eqb k k'); constructor; trivial.
    cbn. intros E. apply app_eq_nil in E. destruct E; discriminate.
Qed.

Lemma record_all_nonempty evs : forall d,
  Forall (fun x => snd x <> []) d ->
  Forall (fun x => snd x <> []) (record_all d evs).
Proof.
  unfold record_all. induction evs as [|ev evs IH]; intros d Hd; trivial.
  cbn [fold_left]. apply IH, dict_append_nonempty, Hd.
Qed.

Lemma condition_performance_nonempty ts :
  Forall (fun x => snd x <> []) (condition_performance ts).
Proof.
  rewrite condition_performance_events. apply record_all_nonempty. constructor.
Qed.

Lemma rate_defined x :
  snd x <> [] -> rate x = Ok (rate_value x) /\ below_one (rate_value x).
Proof.
  intros H. unfold rate_value, rate.
  destruct (int_truediv_below_one (sum_bools (snd x)) (len (snd x))) as (q & -> & Hq).
  - apply sum_bools_bounds.
  - unfold len. destruct (snd x); [congruence | cbn [List.length]; lia].
  - split; [reflexivity | exact Hq].
Qed.

Lemma below_one_not_nan q : below_one q -> B64.is_nan q = false.
Proof. intros [-> | (m & e & -> & _)]; reflexivity. Qed.

Lemma mapM_defined {A B} (f : A -> result B) (g : A -> B) l :
  Forall (fun x => f x = Ok (g x)) l -> mapM f l = Ok (map g l).
Proof.
  induction 1 as [|x l Hx Hl IH]; [reflexivity|].
  cbn [mapM map]. rewrite Hx, IH. reflexivity.
Qed.

Lemma In_firstn {A} (x : A) n l : In x (firstn n l) -> In x l.
Proof.
  intros H. rewrite <- (firstn_skipn n l). apply in_or_app. left; exact H.
Qed.

Lemma Forall_firstn {A} (P : A -> Prop) n l : Forall P l -> Forall P (firstn n l).
Proof.
  intros H. apply Forall_forall. intros x Hx.
  rewrite Forall_forall in H. apply H. eapply In_firstn; eauto.
Qed.

Lemma map_snd_decorate {A} (key : A -> float) l : map snd (map (decorate key) l) = l.
Proof. rewrite map_map. cbn. apply map_id. Qed.

(** ** The analyzer on a journal that is not empty *)

Theorem analyze_performance_report st :
  trades st <> [] ->
  analyze_performance st = Ok (report_of (trades st)).
Proof.
  intros Hne. unfold analyze_performance.
  destruct (nonempty (trades st)) eqn:E; [|apply nonempty_spec in Hne; congruence].
  cbn [negb].
  set (ts := trades st) in *.
  change (filter (fun t => gt0 (profit_loss t)) ts) with (filter winning ts).
  change (map profit_loss (filter winning ts)) with (profit_pool ts).
  change (map (fun t => B64.abs (profit_loss t))
              (filter (fun t => lt0 (profit_loss t)) ts)) with (loss_pool ts).
  destruct (int_truediv_below_one (len (filter winning ts)) (len ts)) as (wr & Hwr & _).
  { unfold len. pose proof (filter_length_le winning ts). lia. }
  { unfold len. destruct ts; [congruence | cbn [List.length]; lia]. }
  unfold report_of. rewrite Hwr. cbn [bind value_or_nan].
  assert (Hpf : (if nonempty (loss_pool ts)
                 then float_truediv (py_sum (profit_pool ts)) (B64.abs (py_sum (loss_pool ts)))
                 else Ok B64.inf)
                = Ok (if nonempty (loss_pool ts)
                      then B64.div (py_sum (profit_pool ts)) (py_sum (loss_pool ts))
                      else B64.inf)).
  { destruct (nonempty (loss_pool ts)) eqn:El; [|reflexivity].
    apply profit_factor_defined. exact El. }
  rewrite Hpf. cbn [bind].
  assert (Hrates : Forall (fun x => rate x = Ok (rate_value x)) (condition_performance ts)).
  { eapply Forall_impl; [|apply condition_performance_nonempty].
    intros x Hx. apply rate_defined. exact Hx. }
  assert (Hkeyed : mapM with_key (condition_performance ts)
                   = Ok (map (decorate rate_value) (condition_performance ts))).
  { apply mapM_defined. eapply Forall_impl; [|exact Hrates].
    intros x Hx. unfold with_key. rewrite Hx. reflexivity. }
  rewrite Hkeyed. cbn [bind].
  rewrite sorted_reverse_decorate, map_snd_decorate.
  assert (Hins : mapM insight (firstn 3 (sort_by rate_value (condition_performance ts)))
                 = Ok (map insight_text (firstn 3 (sort_by rate_value (condition_performance ts))))).
  { apply mapM_defined, Forall_firstn.
    apply Forall_forall. intros x Hx.
    apply (Permutation_in _ (Permutation_sym (sort_by_perm rate_value _))) in Hx.
    rewrite Forall_forall in Hrates. unfold insight. rewrite (Hrates x Hx). reflexivity. }
  rewrite Hins. reflexivity.
Qed.

(** ** Further facts on the pools *)

Lemma filter_winning_skip ts1 t ts2 :
  winning t = false ->
  filter winning (ts1 ++ t :: ts2) = filter winning (ts1 ++ ts2).
Proof.
  intros H. rewrite !filter_app. cbn [filter]. rewrite H. reflexivity.
Qed.

Lemma all_winning_no_loss ts :
  Forall (fun t => gt0 (profit_loss t) = true) ts -> loss_pool ts = [].
Proof.
  unfold loss_pool. induction 1 as [|t ts Ht Hts IH]; [reflexivity|].
  cbn [filter]. unfold losing at 1.
  destruct (gt0_exclusive _ Ht) as [-> _]. exact IH.
Qed.

(** ** The sign of a short position *)

(** Multiplying by minus one negates a valid float. *)
Lemma neg_one_mul d :
  valid_binary B64.prec B64.emax d = true ->
  B64.mul (B64.of_int (-1)) d = SFopp d.
Proof.
  destruct d as [s | s | | s m e]; try reflexivity.
  cbn [valid_binary]. unfold bounded, canonical_mantissa.
  intros H. apply andb_prop in H. destruct H as [Hc Hb].
  apply Z.eqb_eq in Hc. apply Z.leb_le in Hb.
  change (B64.of_int (-1)) with (S754_finite true (2 ^ 52) (-52)).
  unfold B64.mul, SFmul. cbn [xorb].
  unfold binary_round_aux.
  assert (Hs : shr_fexp B64.prec B64.emax (Zpos (2 ^ 52 * m)) (-52 + e) loc_Exact
               = ({| shr_m := Zpos m; shr_r := false; shr_s := false |}, e)).
  { unfold shr_fexp.
    assert (Hd : Zdigits2 (Zpos (2 ^ 52 * m)) = Zpos (digits2_pos m) + 52).
    { cbn. lia. }
    rewrite Hd.
    replace (Z.pos (digits2_pos m) + 52 + (-52 + e)) with (Z.pos (digits2_pos m) + e) by lia.
    rewrite Hc. replace (e - (-52 + e)) with 52 by lia.
    unfold shr. apply f_equal2; [cbn; reflexivity | lia]. }
  rewrite Hs. cbn [shr_m loc_of_shr_record round_nearest_even].
  assert (Hs2 : shr_fexp B64.prec B64.emax (Zpos m) e loc_Exact
               = ({| shr_m := Zpos m; shr_r := false; shr_s := false |}, e)).
  { unfold shr_fexp. cbn [Zdigits2]. rewrite Hc, Z.sub_diag. reflexivity. }
  rewrite Hs2. cbn [shr_m].
  apply Z.leb_le in Hb. rewrite Hb. reflexivity.
Qed.

(** ** Snapshots that compare equal give the same report *)

Lemma same_float_alike x y : same_float x y -> alike x y.
Proof.
  intros [-> | H]; [left; reflexivity|].
  unfold B64.eqb, SFeqb in H.
  destruct x as [sx | sx | | sx mx ex], y as [sy | sy | | sy my ey];
    try (destruct sx); try (destruct sy); cbn in H; try discriminate;
    try (left; reflexivity); try (right; split; reflexivity).
  all: destruct (Z.compare_spec ex ey); try discriminate; subst;
    change (Pos.compare_cont Eq mx my) with (Pos.compare mx my) in H;
    destruct (Pos.compare_spec mx my); try discriminate; subst; left; reflexivity.
Qed.

Ltac alike_cases :=
  first [ left; reflexivity | right; split; reflexivity ].

Lemma alike_sub x x' y y' :
  alike x x' -> alike y y' -> alike (B64.sub x y) (B64.sub x' y').
Proof.
  intros [-> | [Hx Hx']] [-> | [Hy Hy']]; try (left; reflexivity).
  - destruct y as [sy | | |], y' as [sy' | | |]; try discriminate.
    destruct x' as [s | s | | s m e]; try (destruct s);
      destruct sy, sy'; alike_cases.
  - destruct x as [sx | | |], x' as [sx' | | |]; try discriminate.
    destruct y' as [s | s | | s m e]; try (destruct s);
      destruct sx, sx'; alike_cases.
  - destruct x as [sx | | |], x' as [sx' | | |]; try discriminate.
    destruct y as [sy | | |], y' as [sy' | | |]; try discriminate.
    destruct sx, sx', sy, sy'; alike_cases.
Qed.

Lemma alike_mul x x' y y' :
  alike x x' -> alike y y' -> alike (B64.mul x y) (B64.mul x' y').
Proof.
  intros [-> | [Hx Hx']] [-> | [Hy Hy']]; try (left; reflexivity).
  - destruct y as [sy | | |], y' as [sy' | | |]; try discriminate.
    destruct x' as [s | s | | s m e]; try (destruct s);
      destruct sy, sy'; alike_cases.
  - destruct x as [sx | | |], x' as [sx' | | |]; try discriminate.
    destruct y' as [s | s | | s m e]; try (destruct s);
      destruct sx, sx'; alike_cases.
  - destruct x as [sx | | |], x' as [sx' | | |]; try discriminate.
    destruct y as [sy | | |], y' as [sy' | | |]; try discriminate.
    destruct sx, sx', sy, sy'; alike_cases.
Qed.

Lemma same_trade_profit_loss t u :
  same_trade t u -> alike (profit_loss t) (profit_loss u).
Proof.
  intros (_ & _ & Hen & Hex & Hsz & Hty & _).
  unfold profit_loss, multiplier. rewrite Hty.
  apply alike_mul; [apply alike_mul; [left; reflexivity|]|].
  - apply alike_sub; apply same_float_alike; trivial.
  - apply same_float_alike; trivial.
Qed.

Lemma alike_signs x y :
  alike x y ->
  gt0 x = gt0 y /\ lt0 x = lt0 y
  /\ (gt0 x = true -> x = y) /\ (lt0 x = true -> x = y).
Proof.
  intros [-> | [Hx Hy]]; [repeat split; trivial|].
  destruct x as [sx | | |], y as [sy | | |]; try discriminate.
  repeat split; try reflexivity; destruct sx; discriminate.
Qed.

Lemma same_trades_pools ts us :
  Forall2 same_trade ts us ->
  len ts = len us
  /\ len (filter winning ts) = len (filter winning us)
  /\ profit_pool ts = profit_pool us
  /\ loss_pool ts = loss_pool us
  /\ events ts = events us.
Proof.
  induction 1 as [|t u ts us Htu Hrest (IH1 & IH2 & IH3 & IH4 & IH5)].
  - repeat split.
  - pose proof (same_trade_profit_loss t u Htu) as Hpl.
    destruct (alike_signs _ _ Hpl) as (Hg & Hl & Hge & Hle).
    destruct Htu as (_ & _ & _ & _ & _ & _ & Hmc & _).
    assert (Hw : winning u = winning t) by (unfold winning; congruence).
    assert (Hlo : losing u = losing t) by (unfold losing; congruence).
    unfold profit_pool, loss_pool, len in *.
    cbn [filter events flat_map List.length]. fold (events ts). fold (events us).
    rewrite Hw, Hlo, <- Hmc, IH5.
    repeat split.
    + lia.
    + destruct (winning t); cbn [List.length]; lia.
    + destruct (winning t) eqn:E; cbn [map]; [rewrite (Hge E)|]; congruence.
    + destruct (losing t) eqn:E; cbn [map]; [rewrite (Hle E)|]; congruence.
Qed.

Lemma same_trades_report ts us :
  Forall2 same_trade ts us -> report_of ts = report_of us.
Proof.
  intros H. destruct (same_trades_pools ts us H) as (H1 & H2 & H3 & H4 & H5).
  unfold report_of. rewrite !condition_performance_events, H1, H2, H3, H4, H5.
  reflexivity.
Qed.

(** ** Further facts on the ranking *)

Lemma StronglySorted_app_inv {A} (R : A -> A -> Prop) l1 l2 x y :
  StronglySorted R (l1 ++ l2) -> In x l1 -> In y l2 -> R x y.
Proof.
  induction l1 as [|a l1 IH]; intros Hs Hx Hy; [destruct Hx|].
  cbn [app] in Hs. apply StronglySorted_inv in Hs. destruct Hs as [Hs Ha].
  destruct Hx as [-> | Hx]; [|auto].
  rewrite Forall_forall in Ha. apply Ha. apply in_or_app. right; exact Hy.
Qed.

Lemma rates_not_nan ts :
  Forall (fun x => B64.is_nan (rate_value x) = false) (condition_performance ts).
Proof.
  eapply Forall_impl; [|apply condition_performance_nonempty].
  intros x Hx. apply below_one_not_nan. apply rate_defined. exact Hx.
Qed.

(** ** The pattern miner *)

Lemma sorted_reverse_by_key {A} (key : A -> float) (l : list A) :
  map snd (sorted_reverse (map (decorate key) l)) = sort_by key l.
Proof.
  rewrite sorted_reverse_decorate. apply map_snd_decorate.
Qed.

Section PatternMinerFacts.
Variable set_union : list (list string) -> list string.

(** Sorting the pairs of names and scores keeps every pair. *)
Lemma importance_perm ts scores :
  Permutation
    (importance set_union ts scores)
    (combine (feature_names set_union ts) scores).
Proof.
  unfold importance.
  change (map (fun x : string * float => (snd x, x)))
    with (map (decorate (@snd string float))).
  rewrite sorted_reverse_by_key. symmetry. apply sort_by_perm.
Qed.

End PatternMinerFacts.


Lemma create_trade_nonempty t st : trades (fst (create_trade t st)) <> [].
Proof.
  cbn. intros E. apply app_eq_nil in E. destruct E; discriminate.
Qed.

(** * The claims of the specification *)

(** ** Win rate *)

(** C1: on a journal that is not empty, [analyze_performance] returns a
    win rate equal to the number of trades whose profit is positive
    divided by the number of all trades.  The win rate lies between zero
    and one.  A trade whose profit is negative or zero adds one to the
    divisor and nothing to the dividend. *)
Theorem win_rate_ratio :
  forall st, trades st <> [] ->
  exists report,
    analyze_performance st = Ok report
    /\ int_truediv (len (filter winning (trades st))) (len (trades st))
       = Ok (win_rate report)
    /\ in_unit_interval (win_rate report)
    /\ (forall ts1 t ts2,
          trades st = ts1 ++ t :: ts2 ->
          losing t = true \/ break_even t = true ->
          len (filter winning (trades st)) = len (filter winning (ts1 ++ ts2))
          /\ len (trades st) = len (ts1 ++ ts2) + 1).
Proof.
  intros st Hne. exists (report_of (trades st)).
  split; [apply analyze_performance_report; exact Hne|].
  destruct (int_truediv_below_one (len (filter winning (trades st))) (len (trades st)))
    as (q & Hq & Hb).
  { unfold len. pose proof (filter_length_le winning (trades st)). lia. }
  { unfold len. destruct (trades st); [congruence | cbn [List.length]; lia]. }
  cbn [report_of win_rate]. rewrite Hq. cbn [value_or_nan].
  split; [reflexivity|]. split; [apply below_one_unit; exact Hb|].
  intros ts1 t ts2 E Ht. rewrite E.
  rewrite filter_winning_skip by (apply not_gt0; exact Ht).
  split; [reflexivity|]. rewrite !len_app. unfold len. cbn [List.length]. lia.
Qed.

(** The win rate of the example journal. *)
Lemma win_rate_ratio_witness :
  trades (journal example_trades) <> []
  /\ exists report,
       analyze_performance (journal example_trades) = Ok report
       /\ int_truediv (len (filter winning example_trades)) (len example_trades)
          = Ok (win_rate report)
       /\ in_unit_interval (win_rate report)
       /\ (forall ts1 t ts2,
             example_trades = ts1 ++ t :: ts2 ->
             losing t = true \/ break_even t = true ->
             len (filter winning example_trades) = len (filter winning (ts1 ++ ts2))
             /\ len example_trades = len (ts1 ++ ts2) + 1).
Proof.
  split; [discriminate|].
  apply (win_rate_ratio (journal example_trades)). discriminate.
Defined.

(** ** Profit factor *)

(** C2: on a journal that is not empty, the profit factor is the sum of
    the profit pool divided by the sum of the absolute values of the loss
    pool when the loss pool is not empty, and positive infinity when the
    loss pool is empty, also when the profit pool is empty too, so that
    no NaN comes out of zero over zero.  When every trade has a positive
    profit, the profit factor is positive infinity and the average loss
    is zero. *)
Theorem profit_factor_pools :
  forall st, trades st <> [] ->
  exists report,
    analyze_performance st = Ok report
    /\ (loss_pool (trades st) <> [] ->
        profit_factor report
        = B64.div (py_sum (profit_pool (trades st))) (py_sum (loss_pool (trades st))))
    /\ (loss_pool (trades st) = [] -> profit_factor report = B64.inf)
    /\ (profit_pool (trades st) = [] -> loss_pool (trades st) = [] ->
        profit_factor report = B64.inf /\ B64.is_nan (profit_factor report) = false)
    /\ (Forall (fun t => gt0 (profit_loss t) = true) (trades st) ->
        profit_factor report = B64.inf /\ average_loss report = B64.of_int 0).
Proof.
  intros st Hne. exists (report_of (trades st)).
  split; [apply analyze_performance_report; exact Hne|].
  cbn [report_of profit_factor average_loss].
  split; [|split; [|split]].
  - intros H. apply nonempty_spec in H. rewrite H. reflexivity.
  - intros ->. reflexivity.
  - intros _ ->. split; reflexivity.
  - intros Hall. rewrite (all_winning_no_loss _ Hall). split; reflexivity.
Qed.

(** The profit factor of the example journal. *)
Lemma profit_factor_pools_witness :
  trades (journal example_trades) <> []
  /\ exists report,
       analyze_performance (journal example_trades) = Ok report
       /\ (loss_pool example_trades <> [] ->
           profit_factor report
           = B64.div (py_sum (profit_pool example_trades))
                     (py_sum (loss_pool example_trades)))
       /\ (loss_pool example_trades = [] -> profit_factor report = B64.inf)
       /\ (profit_pool example_trades = [] -> loss_pool example_trades = [] ->
           profit_factor report = B64.inf
           /\ B64.is_nan (profit_factor report) = false)
       /\ (Forall (fun t => gt0 (profit_loss t) = true) example_trades ->
           profit_factor report = B64.inf /\ average_loss report = B64.of_int 0).
Proof.
  split; [discriminate|].
  apply (profit_factor_pools (journal example_trades)). discriminate.
Defined.

(** ** The example of the specification *)

(** C3: on the journal of the three trades long 100 to 110 of size 1
    under "trend", short 50 to 40 of size 2 under "trend" and long 30 to
    20 of size 1 under "range", the profits are 10, 20 and -10, and the
    analyzer returns the win rate 2/3, the average win 15, the average
    loss 10, the profit factor 3 and the best conditions "trend" then
    "range", whose win rates are one and zero. *)
Theorem example_report :
  map profit_loss example_trades = map B64.of_int [10; 20; -10]
  /\ exists report,
       analyze_performance (journal example_trades) = Ok report
       /\ int_truediv 2 3 = Ok (win_rate report)
       /\ win_rate report = S754_finite false 6004799503160661 (-53)
       /\ average_win report = B64.of_int 15
       /\ average_loss report = B64.of_int 10
       /\ profit_factor report = B64.of_int 3
       /\ best_conditions report = ["trend"; "range"]
       /\ map rate_value (condition_performance example_trades)
          = [B64.of_int 1; B64.of_int 0]
       /\ pattern_insights report
          = ["Best win rate in trend: 100.0%"; "Best win rate in range: 0.0%"].
Proof.
  split; [vm_compute; reflexivity|].
  exists (report_of example_trades).
  split; [apply analyze_performance_report; discriminate|].
  repeat split; vm_compute; reflexivity.
Qed.

(** ** Best conditions and insights *)

(** The rate of a condition of the dictionary, counted on the journal. *)
Lemma rate_occurrences ts x :
  In x (condition_performance ts) ->
  rate x = Ok (rate_value x)
  /\ rate x = int_truediv (occurrences (fst x) (filter winning ts))
                          (occurrences (fst x) ts).
Proof.
  intros Hx. destruct x as [k v].
  pose proof (condition_performance_nonempty ts) as Hn.
  rewrite Forall_forall in Hn. specialize (Hn _ Hx).
  split; [apply rate_defined; exact Hn|].
  unfold rate. cbn [snd fst]. rewrite (condition_performance_value _ _ _ Hx).
  rewrite sum_outcomes, len_outcomes. reflexivity.
Qed.

(** C4, as the code has it: on a journal that is not empty, the
    conditions of the dictionary are the distinct labels of the journal
    in first-seen order; the win rate of a condition is the number of
    occurrences of its label in the condition lists of the trades with a
    positive profit divided by the number of its occurrences in the
    condition lists of all trades, which is the share of winners among
    the trades that carry the label when no trade lists a label twice;
    the best conditions are the first three, or all when there are fewer,
    of the ranking of the conditions by this win rate, largest first, in
    which conditions of equal win rate keep their first-seen order; no
    condition left out has a larger win rate than one kept; and there is
    exactly one insight per best condition, of the form
    "Best win rate in LABEL: PERCENT%" with the win rate times one hundred
    printed with one decimal. *)
Theorem best_conditions_ranked :
  forall st, trades st <> [] ->
  exists report ranked,
    analyze_performance st = Ok report
    /\ map fst (condition_performance (trades st))
       = first_seen (map market_conditions (trades st))
    /\ NoDup (map fst (condition_performance (trades st)))
    /\ Forall
         (fun x =>
            rate x = Ok (rate_value x)
            /\ rate x = int_truediv
                          (occurrences (fst x) (filter winning (trades st)))
                          (occurrences (fst x) (trades st))
            /\ (Forall (fun t => NoDup (market_conditions t)) (trades st) ->
                rate x = int_truediv
                           (len (filter (carries (fst x))
                                        (filter winning (trades st))))
                           (len (filter (carries (fst x)) (trades st)))))
         (condition_performance (trades st))
    /\ Permutation (condition_performance (trades st)) ranked
    /\ StronglySorted
         (ranks_before rate_value (condition_performance (trades st))) ranked
    /\ best_conditions report = map fst (firstn 3 ranked)
    /\ List.length (best_conditions report)
       = Nat.min 3 (List.length (first_seen (map market_conditions (trades st))))
    /\ (forall x y,
          In x (firstn 3 ranked) -> In y (skipn 3 ranked) ->
          B64.leb (rate_value y) (rate_value x) = true)
    /\ pattern_insights report
       = map (fun c =>
                ("Best win rate in " ++ fst c ++ ": "
                 ++ format_1f (B64.mul (rate_value c) (B64.of_int 100))
                 ++ "%")%string)
             (firstn 3 ranked)
    /\ List.length (pattern_insights report) = List.length (best_conditions report).
Proof.
  intros st Hne.
  exists (report_of (trades st)),
         (sort_by rate_value (condition_performance (trades st))).
  pose proof (sort_by_perm rate_value (condition_performance (trades st))) as Hperm.
  pose proof (sort_by_sorted rate_value _ (rates_not_nan (trades st))) as Hsorted.
  split; [apply analyze_performance_report; exact Hne|].
  split; [apply condition_performance_keys|].
  split; [apply condition_performance_NoDup|].
  split.
  { apply Forall_forall. intros x Hx.
    destruct (rate_occurrences _ _ Hx) as [Hv Hr].
    split; [exact Hv|]. split; [exact Hr|].
    intros Hnd. rewrite Hr, !occurrences_NoDup; trivial.
    apply Forall_forall. intros t Ht. apply filter_In in Ht.
    rewrite Forall_forall in Hnd. apply Hnd. tauto. }
  split; [exact Hperm|]. split; [exact Hsorted|].
  cbn [report_of best_conditions pattern_insights].
  split; [reflexivity|]. split.
  { rewrite length_map, length_firstn, <- condition_performance_keys, length_map.
    rewrite (Permutation_length Hperm). reflexivity. }
  split.
  { intros x y Hx Hy. eapply ranks_before_ge.
    eapply StronglySorted_app_inv; [|exact Hx|exact Hy].
    rewrite firstn_skipn. exact Hsorted. }
  split; [reflexivity|]. rewrite !length_map. reflexivity.
Qed.

(** The ranking of the example journal: "trend", of rate two over two,
    before "range", of rate nought over one. *)
Lemma best_conditions_ranked_witness :
  trades (journal example_trades) <> []
  /\ exists report,
       analyze_performance (journal example_trades) = Ok report
       /\ Forall
            (fun x =>
               rate x = int_truediv
                          (occurrences (fst x) (filter winning example_trades))
                          (occurrences (fst x) example_trades))
            (condition_performance example_trades)
       /\ best_conditions report = ["trend"; "range"]
       /\ List.length (best_conditions report)
          = Nat.min 3 (List.length (first_seen (map market_conditions example_trades)))
       /\ List.length (pattern_insights report) = List.length (best_conditions report).
Proof.
  split; [discriminate|].
  destruct (best_conditions_ranked (journal example_trades) ltac:(discriminate))
    as (report & ranked & H & _ & _ & Hrate & _ & _ & _ & Hlen & _ & _ & Hins).
  exists report. split; [exact H|]. split.
  { eapply Forall_impl; [|exact Hrate]. intros x (_ & Hx & _). exact Hx. }
  split.
  { assert (E : Ok report = Ok (report_of example_trades)).
    { rewrite <- H. vm_compute. reflexivity. }
    injection E as ->. vm_compute. reflexivity. }
  split; [exact Hlen | exact Hins].
Defined.

(** C4, as the specification states it, fails on a trade that lists a
    label twice.  Of the three trades under "breakout" one wins and of
    the two under "range" one wins, so that by the share of winning
    trades "range", at one over two, comes before "breakout", at one over
    three; yet the winner lists "breakout" three times, the analyzer
    counts three wins in five, and "breakout" comes first at 60.0%. *)
Lemma best_conditions_repeated_label :
  exists report,
    analyze_performance (journal skewed_trades) = Ok report
    /\ best_conditions report = ["breakout"; "range"]
    /\ pattern_insights report
       = ["Best win rate in breakout: 60.0%"; "Best win rate in range: 50.0%"]
    /\ len (filter (carries "breakout") (filter winning skewed_trades)) = 1
    /\ len (filter (carries "breakout") skewed_trades) = 3
    /\ len (filter (carries "range") (filter winning skewed_trades)) = 1
    /\ len (filter (carries "range") skewed_trades) = 2
    /\ exists third half,
         int_truediv 1 3 = Ok third /\ int_truediv 1 2 = Ok half
         /\ B64.ltb third half = true.
Proof.
  eexists. split; [vm_compute; reflexivity|].
  repeat (split; [vm_compute; reflexivity|]).
  eexists. eexists. repeat split; vm_compute; reflexivity.
Qed.

(** ** Win rate of a condition *)

(** C5, as the code has it: the conditions of the dictionary are the
    labels that some trade carries, and the win rate by which a condition
    is ranked is the number of occurrences of its label in the condition
    lists of the trades with a positive profit divided by the number of
    its occurrences in the condition lists of all trades, every trade
    contributing once for each occurrence of the label in its list.  When
    no trade lists a label twice, this is the number of trades with a
    positive profit that carry the label divided by the number of trades
    that carry it. *)
Theorem condition_rate_counts :
  forall ts,
    (forall k, In k (map fst (condition_performance ts))
               <-> exists t, In t ts /\ In k (market_conditions t))
    /\ Forall
         (fun x =>
            rate x = Ok (rate_value x)
            /\ rate x = int_truediv (occurrences (fst x) (filter winning ts))
                                    (occurrences (fst x) ts)
            /\ (Forall (fun t => NoDup (market_conditions t)) ts ->
                rate x = int_truediv
                           (len (filter (carries (fst x)) (filter winning ts)))
                           (len (filter (carries (fst x)) ts))))
         (condition_performance ts).
Proof.
  intros ts. split.
  - intros k. rewrite condition_performance_keys, first_seen_In. split.
    + intros (l & Hl & Hk). apply in_map_iff in Hl. destruct Hl as (t & <- & Ht). eauto.
    + intros (t & Ht & Hk). exists (market_conditions t). split; trivial.
      apply in_map. exact Ht.
  - apply Forall_forall. intros [k v] Hx.
    pose proof (condition_performance_nonempty ts) as Hn.
    rewrite Forall_forall in Hn. specialize (Hn _ Hx).
    split; [apply rate_defined; exact Hn|].
    assert (E : rate (k, v) = int_truediv (occurrences k (filter winning ts))
                                          (occurrences k ts)).
    { unfold rate. cbn [snd]. rewrite (condition_performance_value _ _ _ Hx).
      rewrite sum_outcomes, len_outcomes. reflexivity. }
    split; [exact E|]. intros Hnd. rewrite E. cbn [fst].
    rewrite !occurrences_NoDup; trivial.
    apply Forall_forall. intros t Ht. apply filter_In in Ht.
    rewrite Forall_forall in Hnd. apply Hnd. tauto.
Qed.

(** C5, as the specification states it, fails on a trade that lists a
    label twice: of the two trades under "trend", one wins, which makes
    one over two, yet the winning trade lists "trend" twice and the
    analyzer ranks the condition by two over three and reports 66.7%. *)
Lemma condition_rate_repeated_label :
  condition_performance repeated_label_trades = [("trend", [true; true; false])]
  /\ rate ("trend", [true; true; false]) = int_truediv 2 3
  /\ len (filter (carries "trend") (filter winning repeated_label_trades)) = 1
  /\ len (filter (carries "trend") repeated_label_trades) = 2
  /\ int_truediv 2 3 = Ok (S754_finite false 6004799503160661 (-53))
  /\ int_truediv 1 2 = Ok (S754_finite false 4503599627370496 (-53))
  /\ exists report,
       analyze_performance (journal repeated_label_trades) = Ok report
       /\ best_conditions report = ["trend"]
       /\ pattern_insights report = ["Best win rate in trend: 66.7%"].
Proof.
  do 6 (split; [vm_compute; reflexivity|]).
  exists (report_of repeated_label_trades).
  split; [apply analyze_performance_report; discriminate|].
  split; vm_compute; reflexivity.
Qed.

(** ** Errors *)

(** C6: [analyze_performance] raises the not-found error, status 404 with
    the message "No trades found", exactly when the journal is empty; on
    every other journal it returns a report and raises nothing. *)
Theorem analyze_performance_empty_iff :
  forall st,
    (analyze_performance st = Raise (HTTPException 404 "No trades found")
     <-> trades st = [])
    /\ (trades st = [] \/ exists report, analyze_performance st = Ok report).
Proof.
  intros st. destruct (trades st) as [|t ts] eqn:E.
  - assert (H : analyze_performance st = Raise (HTTPException 404 "No trades found")).
    { unfold analyze_performance. rewrite E. reflexivity. }
    split; [split; trivial | left; reflexivity].
  - assert (H : analyze_performance st = Ok (report_of (trades st))).
    { apply analyze_performance_report. rewrite E. discriminate. }
    rewrite H. split; [split; discriminate | right; eauto].
Qed.

(** C7, as the code has it: [analyze_patterns] raises the bad-request
    error, status 400 with the message
    "Need at least 10 trades for pattern analysis", exactly when the
    journal holds fewer than ten trades, whatever the forest, its draw
    and the order of the set are; nine trades fail with it.  On ten
    trades or more the journal goes to the forest: the end point returns
    a report when the fit takes the training set, and the error of the
    fit when it does not. *)
Theorem analyze_patterns_floor :
  forall (set_union : list (list string) -> list string)
         (random_state : Type)
         (forest : random_state -> Z -> list (list num) -> list Z -> fit)
         (rs : random_state) (st : AppState),
    (analyze_patterns set_union random_state forest rs st
       = Raise (HTTPException 400 "Need at least 10 trades for pattern analysis")
     <-> (List.length (trades st) < 10)%nat)
    /\ (List.length (trades st) = 9%nat ->
        analyze_patterns set_union random_state forest rs st
          = Raise (HTTPException 400 "Need at least 10 trades for pattern analysis"))
    /\ ((10 <= List.length (trades st))%nat ->
        (forall scores,
            forest rs 50 (features set_union (trades st)) (labels (trades st))
            = Fitted scores ->
            exists report,
              analyze_patterns set_union random_state forest rs st = Ok report)
        /\ (forall message,
               forest rs 50 (features set_union (trades st)) (labels (trades st))
               = Rejected message ->
               analyze_patterns set_union random_state forest rs st
               = Raise (ValueError message))).
Proof.
  intros su R forest rs st. unfold analyze_patterns, len.
  destruct (Z.ltb_spec (Z.of_nat (List.length (trades st))) 10) as [Hlt | Hge].
  - split; [split; intros; [lia | reflexivity]|].
    split; [reflexivity | lia].
  - split.
    { split; [|lia].
      destruct (forest rs 50 (features su (trades st)) (labels (trades st)));
        discriminate. }
    split; [lia|]. intros _. split.
    + intros scores ->. eexists. reflexivity.
    + intros message ->. reflexivity.
Qed.

(** The floor on the journal of ten trades: the ten pass and are scored
    by the forest of the examples, the first nine of them are turned
    down. *)
Lemma analyze_patterns_floor_witness :
  List.length (trades (journal ten_trades)) = 10%nat
  /\ (exists report,
        analyze_patterns first_seen bool sample_forest true (journal ten_trades)
        = Ok report)
  /\ List.length (trades (journal (firstn 9 ten_trades))) = 9%nat
  /\ analyze_patterns first_seen bool sample_forest true
       (journal (firstn 9 ten_trades))
     = Raise (HTTPException 400 "Need at least 10 trades for pattern analysis").
Proof.
  split; [reflexivity|]. split.
  - destruct (analyze_patterns_floor first_seen bool sample_forest true
                (journal ten_trades)) as (_ & _ & Hten).
    destruct (Hten ltac:(cbn; lia)) as [Hfit _].
    exact (Hfit _ ltac:(vm_compute; reflexivity)).
  - split; [reflexivity|].
    destruct (analyze_patterns_floor first_seen bool sample_forest true
                (journal (firstn 9 ten_trades))) as (_ & Hnine & _).
    exact (Hnine eq_refl).
Defined.

(** C7, as the specification states it, fails on ten trades of a size
    that the forest does not take.  Ten trades of a position size of
    [1e39], a double beyond single precision, pass the floor and reach
    the fit, which raises; whatever the order of the set and the draw,
    the end point raises the [ValueError] of the fit and returns no
    report. *)
Lemma analyze_patterns_oversized :
  List.length (trades (journal oversized_trades)) = 10%nat
  /\ forall (set_union : list (list string) -> list string) (rs : bool),
       analyze_patterns set_union bool sample_forest rs (journal oversized_trades)
       = Raise (ValueError
                  "Input X contains infinity or a value too large for dtype('float32').").
Proof.
  split; [reflexivity|]. intros su rs.
  unfold analyze_patterns.
  change (len (trades (journal oversized_trades)) <? 10) with false.
  cbv iota.
  assert (E : existsb (existsb float32_overflows)
                      (features su (trades (journal oversized_trades))) = true).
  { change (trades (journal oversized_trades)) with oversized_trades.
    unfold features, oversized_trades.
    cbn [repeat map existsb feature_row]. 
    assert (Hsize : float32_overflows
                      (PyFloat (position_size (mk_trade "long" 100 110 (10 ^ 39) ["trend"])))
                    = true) by (vm_compute; reflexivity).
    rewrite Hsize. rewrite Bool.orb_true_r. reflexivity. }
  unfold sample_forest. rewrite E. reflexivity.
Qed.

(** ** Features of the pattern miner *)




(** ** Determinism *)

(** C9: two invocations of [analyze_performance] on snapshots that are
    equal trade for trade, every field identical or comparing equal,
    return the same result, every field of the report identical. *)
Theorem analyze_performance_deterministic :
  forall st1 st2,
    Forall2 same_trade (trades st1) (trades st2) ->
    analyze_performance st1 = analyze_performance st2.
Proof.
  intros st1 st2 H.
  destruct (trades st1) as [|t ts] eqn:E1, (trades st2) as [|u us] eqn:E2;
    try (inversion H; fail).
  - unfold analyze_performance. rewrite E1, E2. reflexivity.
  - rewrite !analyze_performance_report by congruence.
    rewrite E1, E2. f_equal. apply same_trades_report. exact H.
Qed.

(** Two journals that differ in the sign of a zero size. *)
Lemma analyze_performance_deterministic_witness :
  Forall2 same_trade
    (trades (journal [sized_trade (S754_zero false)]))
    (trades (journal [sized_trade (S754_zero true)]))
  /\ analyze_performance (journal [sized_trade (S754_zero false)])
     = analyze_performance (journal [sized_trade (S754_zero true)]).
Proof.
  assert (H : Forall2 same_trade
                (trades (journal [sized_trade (S754_zero false)]))
                (trades (journal [sized_trade (S754_zero true)]))).
  { constructor; [|constructor].
    repeat split; try (left; reflexivity). right; reflexivity. }
  split; [exact H|].
  apply (analyze_performance_deterministic _ _ H).
Defined.

(** ** The type of a trade *)

(** C10: a trade whose type is any string other than the lowercase
    'long' is taken as a short position: its multiplier is -1 and its
    profit is minus one times the price difference times the size, which
    is the opposite of the price difference times the size on every
    valid double.  No route rejects such a trade: it is stored as it is
    and the analyzer reports on the journal that holds it. *)
Theorem short_unless_long :
  forall t, trade_type t <> "long" ->
    multiplier t = -1
    /\ profit_loss t
       = B64.mul (B64.mul (B64.of_int (-1))
                          (B64.sub (exit_price t) (entry_price t)))
                 (position_size t)
    /\ (valid_binary B64.prec B64.emax (B64.sub (exit_price t) (entry_price t)) = true ->
        profit_loss t
        = B64.mul (SFopp (B64.sub (exit_price t) (entry_price t))) (position_size t))
    /\ (forall st,
          trades (fst (create_trade t st)) = trades st ++ [t]
          /\ snd (create_trade t st) = t
          /\ exists report, analyze_performance (fst (create_trade t st)) = Ok report).
Proof.
  intros t Hty.
  assert (Hm : multiplier t = -1).
  { unfold multiplier. destruct (String.eqb_spec (trade_type t) "long"); congruence. }
  assert (Hpl : profit_loss t
                = B64.mul (B64.mul (B64.of_int (-1))
                                   (B64.sub (exit_price t) (entry_price t)))
                          (position_size t)).
  { unfold profit_loss. rewrite Hm. reflexivity. }
  split; [exact Hm|]. split; [exact Hpl|]. split.
  - intros Hv. rewrite Hpl, neg_one_mul by exact Hv. reflexivity.
  - intros st. split; [reflexivity|]. split; [reflexivity|].
    eexists. apply analyze_performance_report. apply create_trade_nonempty.
Qed.

(** A trade typed 'LONG' bought at 100 and sold at 110 is booked as a loss
    of 10; 'Long', 'short' and 'sideways' are short as well. *)
Lemma short_unless_long_witness :
  trade_type capital_long_trade <> "long"
  /\ multiplier capital_long_trade = -1
  /\ profit_loss capital_long_trade = B64.of_int (-10)
  /\ multiplier (mk_trade "Long" 100 110 1 []) = -1
  /\ multiplier (mk_trade "short" 100 110 1 []) = -1
  /\ multiplier (mk_trade "sideways" 100 110 1 []) = -1.
Proof.
  split; [discriminate|].
  destruct (short_unless_long capital_long_trade ltac:(discriminate))
    as (Hm & _ & Hpl & _).
  split; [exact Hm|]. split.
  - rewrite Hpl by (vm_compute; reflexivity). vm_compute. reflexivity.
  - repeat split;
      apply (fun t H => proj1 (short_unless_long t H)); discriminate.
Defined.

(** * Further properties of the code *)

(** ** The journal under requests *)

Section ServiceFacts.

Variable set_union : list (list string) -> list string.
Variable random_state : Type.
Variable forest : random_state -> Z -> list (list num) -> list Z -> fit.

Lemma handle_state req st :
  trades (fst (handle set_union random_state forest req st)) = trades st ++ posted_trades [req]
  /\ stored_conditions (fst (handle set_union random_state forest req st))
     = stored_conditions st ++ posted_conditions [req].
Proof.
  destruct req; cbn; rewrite ?app_nil_r; split; reflexivity.
Qed.

Lemma run_cons req reqs st :
  run set_union random_state forest (req :: reqs) st
  = (fst (run set_union random_state forest reqs (fst (handle set_union random_state forest req st))),
     snd (handle set_union random_state forest req st) :: snd (run set_union random_state forest reqs (fst (handle set_union random_state forest req st)))).
Proof.
  cbn [run]. destruct (handle set_union random_state forest req st) as [st1 resp].
  cbn [fst snd]. destruct (run set_union random_state forest reqs st1). reflexivity.
Qed.

(** After a sequence of requests the two lists hold what they held,
    followed by what was posted, in the order of the posts. *)
Lemma run_state :
  forall reqs st,
    trades (fst (run set_union random_state forest reqs st)) = trades st ++ posted_trades reqs
    /\ stored_conditions (fst (run set_union random_state forest reqs st))
       = stored_conditions st ++ posted_conditions reqs
    /\ List.length (snd (run set_union random_state forest reqs st)) = List.length reqs.
Proof.
  induction reqs as [|req reqs IH]; intros st.
  - cbn. rewrite !app_nil_r. repeat split.
  - rewrite run_cons. cbn [fst snd List.length].
    destruct (IH (fst (handle set_union random_state forest req st))) as (Ht & Hc & Hl).
    destruct (handle_state req st) as [Ht1 Hc1].
    rewrite Ht, Hc, Ht1, Hc1, Hl, <- !app_assoc.
    unfold posted_trades, posted_conditions. cbn [flat_map].
    rewrite !app_nil_r. repeat split.
Qed.



(** Past the floor the pattern miner returns what the fit leaves. *)
Lemma analyze_patterns_outcome rs st :
  (10 <= List.length (trades st))%nat ->
  (exists report, analyze_patterns set_union random_state forest rs st = Ok report)
  \/ (exists message,
        analyze_patterns set_union random_state forest rs st
        = Raise (ValueError message)).
Proof.
  intros H. unfold analyze_patterns, len.
  destruct (Z.ltb_spec (Z.of_nat (List.length (trades st))) 10) as [Hlt | _]; [lia|].
  destruct (forest rs 50 (features set_union (trades st)) (labels (trades st)));
    [left | right]; eexists; reflexivity.
Qed.

Lemma analyze_patterns_400 rs st :
  analyze_patterns set_union random_state forest rs st
  = Raise (HTTPException 400 "Need at least 10 trades for pattern analysis")
  <-> (List.length (trades st) < 10)%nat.
Proof.
  unfold analyze_patterns, len.
  destruct (Z.ltb_spec (Z.of_nat (List.length (trades st))) 10) as [Hlt | Hge].
  - split; intros; [lia | reflexivity].
  - split; [|lia].
    destruct (forest rs 50 (features set_union (trades st)) (labels (trades st)));
      discriminate.
Qed.

(** X1: the journal only grows.  After any sequence of requests the
    trades are those held before followed by the posted ones in the order
    of the posts, and likewise the market conditions; every request is
    answered; and a [GET /trades/] or [GET /market-conditions/] sent next
    returns exactly these lists.  Uploads, reads and analyses store
    nothing. *)
Theorem journal_only_grows :
  forall reqs st,
    trades (fst (run set_union random_state forest reqs st))
    = trades st ++ posted_trades reqs
    /\ stored_conditions (fst (run set_union random_state forest reqs st))
       = stored_conditions st ++ posted_conditions reqs
    /\ List.length (snd (run set_union random_state forest reqs st))
       = List.length reqs
    /\ snd (handle set_union random_state forest GetTrades
           (fst (run set_union random_state forest reqs st)))
    = Trades (trades st ++ posted_trades reqs)
    /\ snd (handle set_union random_state forest GetMarketConditions
              (fst (run set_union random_state forest reqs st)))
       = Conditions (stored_conditions st ++ posted_conditions reqs).
Proof.
  intros reqs st. destruct (run_state reqs st) as (Ht & Hc & Hl).
  split; [exact Ht|]. split; [exact Hc|]. split; [exact Hl|].
  cbn. rewrite Ht, Hc. split; reflexivity.
Qed.

(** X2: after any sequence of requests, the performance analysis
    answers 404 exactly when no trade was held before and none was
    posted, and returns a report otherwise; the pattern analysis answers
    400 exactly when the trades held before and the posted ones are fewer
    than ten together, and otherwise returns a report or raises the
    error of the fit.  No request brings the 404 or the 400 back once
    enough trades are held. *)
Theorem analyses_available :
  forall reqs st rs,
    (analyze_performance (fst (run set_union random_state forest reqs st))
     = Raise (HTTPException 404 "No trades found")
     <-> trades st = [] /\ posted_trades reqs = [])
    /\ ((trades st = [] /\ posted_trades reqs = [])
        \/ exists report,
             analyze_performance (fst (run set_union random_state forest reqs st))
             = Ok report)
    /\ (analyze_patterns set_union random_state forest rs
          (fst (run set_union random_state forest reqs st))
        = Raise (HTTPException 400 "Need at least 10 trades for pattern analysis")
        <-> (List.length (trades st) + List.length (posted_trades reqs) < 10)%nat)
    /\ ((List.length (trades st) + List.length (posted_trades reqs) < 10)%nat
        \/ (exists report,
              analyze_patterns set_union random_state forest rs
                (fst (run set_union random_state forest reqs st))
              = Ok report)
        \/ (exists message,
              analyze_patterns set_union random_state forest rs
                (fst (run set_union random_state forest reqs st))
              = Raise (ValueError message))).
Proof.
  intros reqs st rs. destruct (run_state reqs st) as (Ht & _ & _).
  set (st' := fst (run set_union random_state forest reqs st)) in *.
  assert (Hlen : List.length (trades st')
                 = (List.length (trades st) + List.length (posted_trades reqs))%nat).
  { rewrite Ht, length_app. reflexivity. }
  assert (Hnil : trades st' = [] <-> trades st = [] /\ posted_trades reqs = []).
  { rewrite Ht. split; [apply app_eq_nil | intros [-> ->]; reflexivity]. }
  rewrite <- Hnil, <- Hlen. clear Hnil Hlen Ht.
  split; [|split]; [| |split; [apply analyze_patterns_400|]].
  - destruct (trades st') as [|t ts] eqn:E.
    + unfold analyze_performance. rewrite E. split; trivial.
    + rewrite analyze_performance_report by (rewrite E; discriminate).
      split; [discriminate | intros [=]].
  - destruct (trades st') as [|t ts] eqn:E; [left; reflexivity|].
    right. exists (report_of (trades st')).
    apply analyze_performance_report. rewrite E. discriminate.
  - destruct (Nat.lt_ge_cases (List.length (trades st')) 10) as [Hlt | Hge];
      [left; exact Hlt | right; apply analyze_patterns_outcome; exact Hge].
Qed.


End ServiceFacts.

(** ** The profit of a trade *)

Lemma binary_round_aux_opp s m e l :
  binary_round_aux B64.prec B64.emax (negb s) m e l
  = SFopp (binary_round_aux B64.prec B64.emax s m e l).
Proof.
  unfold binary_round_aux.
  destruct (shr_fexp B64.prec B64.emax m e l) as [mrs' e'].
  destruct (shr_fexp B64.prec B64.emax _ e' loc_Exact) as [mrs'' e''].
  destruct (shr_m mrs''); try reflexivity.
  destruct (e'' <=? B64.emax - B64.prec); reflexivity.
Qed.

Lemma mul_opp_l x y : B64.mul (SFopp x) y = SFopp (B64.mul x y).
Proof.
  destruct x as [sx | sx | | sx mx ex], y as [sy | sy | | sy my ey];
    try reflexivity; unfold B64.mul; cbn [SFopp SFmul];
    try (destruct sx, sy; reflexivity).
  rewrite <- binary_round_aux_opp. destruct sx, sy; reflexivity.
Qed.

Lemma mul_opp_r x y : B64.mul x (SFopp y) = SFopp (B64.mul x y).
Proof.
  destruct x as [sx | sx | | sx mx ex], y as [sy | sy | | sy my ey];
    try reflexivity; unfold B64.mul; cbn [SFopp SFmul];
    try (destruct sx, sy; reflexivity).
  rewrite <- binary_round_aux_opp. destruct sx, sy; reflexivity.
Qed.

Lemma opp_signs x :
  gt0 (SFopp x) = lt0 x /\ lt0 (SFopp x) = gt0 x
  /\ B64.eqb (SFopp x) (B64.of_int 0) = B64.eqb x (B64.of_int 0).
Proof.
  destruct x as [s | s | | s m e]; try (destruct s); repeat split.
Qed.

(** X4: a short position mirrors the long one.  With the same prices and
    size, a trade of any type other than 'long' has the opposite profit
    of the trade of type 'long': it wins when the long one loses, loses
    when the long one wins, and breaks even with it. *)
Theorem short_mirrors_long :
  forall t ty,
    ty <> "long" ->
    profit_loss (with_type ty t) = SFopp (profit_loss (with_type "long" t))
    /\ winning (with_type ty t) = losing (with_type "long" t)
    /\ losing (with_type ty t) = winning (with_type "long" t)
    /\ break_even (with_type ty t) = break_even (with_type "long" t).
Proof.
  intros t ty Hty.
  assert (E : profit_loss (with_type ty t) = SFopp (profit_loss (with_type "long" t))).
  { unfold profit_loss, multiplier. cbn [with_type trade_type exit_price entry_price position_size].
    destruct (String.eqb_spec ty "long") as [|_]; [congruence|].
    change (String.eqb "long" "long") with true. cbv iota.
    change (B64.of_int (-1)) with (SFopp (B64.of_int 1)).
    rewrite !mul_opp_l. reflexivity. }
  split; [exact E|].
  unfold winning, losing, break_even. rewrite E.
  destruct (opp_signs (profit_loss (with_type "long" t))) as (H1 & H2 & H3).
  auto.
Qed.

(** ** A trade closed at its entry price *)

Lemma sub_same x y :
  B64.eqb x y = true ->
  B64.is_zero (B64.sub x y) = true \/ B64.sub x y = S754_nan.
Proof.
  unfold B64.eqb, SFeqb.
  destruct x as [sx | sx | | sx mx ex], y as [sy | sy | | sy my ey];
    try (destruct sx); try (destruct sy); cbn [SFcompare]; try discriminate;
    auto.
  all: change (Pos.compare_cont Eq mx my) with (Pos.compare mx my);
    destruct (Z.compare_spec ex ey); try discriminate; subst;
    destruct (Pos.compare_spec mx my); try discriminate; subst; intros _; left;
    unfold B64.sub, SFsub, cond_Zopp; rewrite ?Z.sub_diag, ?Z.sub_opp_r, ?Z.add_opp_diag_l;
    reflexivity.
Qed.

Lemma mul_zero_signs x y :
  B64.is_zero x = true \/ x = S754_nan ->
  gt0 (B64.mul x y) = false /\ lt0 (B64.mul x y) = false.
Proof.
  intros [H | ->].
  - destruct x as [sx | | |]; try discriminate.
    destruct y as [sy | sy | | sy my ey]; destruct sx; try (destruct sy); split; reflexivity.
  - destruct y; split; reflexivity.
Qed.

Lemma mul_zero_r_signs x y :
  B64.is_zero y = true \/ y = S754_nan ->
  B64.is_zero (B64.mul x y) = true \/ B64.mul x y = S754_nan.
Proof.
  intros [H | ->].
  - destruct y as [sy | | |]; try discriminate.
    destruct x as [sx | sx | | sx mx ex]; cbn; auto.
  - destruct x; cbn; auto.
Qed.

(** X5: a trade whose exit price compares equal to its entry price is
    in no pool: it is neither a win nor a loss, whatever its size and its
    type, and counts in the divisor of the win rate only. *)
Theorem flat_trade_in_no_pool :
  forall t,
    B64.eqb (exit_price t) (entry_price t) = true ->
    winning t = false /\ losing t = false.
Proof.
  intros t H. unfold winning, losing, profit_loss.
  apply mul_zero_signs. apply mul_zero_r_signs. apply sub_same. exact H.
Qed.

(** ** The extremes of the report *)

Lemma div_pos_self a :
  B64.div (S754_finite false a 0) (S754_finite false a 0) = B64.of_int 1.
Proof.
  unfold B64.div, SFdiv, SFdiv_core_binary.
  rewrite !Z.add_0_r, !Z.sub_0_r, !Z.sub_0_l, (Z.sub_diag (Zdigits2 (Zpos a))).
  change (Z.min (fexp B64.prec B64.emax 0) 0) with (-53).
  change (- (-53)) with 53. cbv iota.
  rewrite Z.shiftl_mul_pow2 by lia.
  assert (Hq : fst (Z.div_eucl (Zpos a * 2 ^ 53) (Zpos a)) = 2 ^ 53).
  { change (fst (Z.div_eucl (Zpos a * 2 ^ 53) (Zpos a)))
      with (Zpos a * 2 ^ 53 / Zpos a).
    rewrite Z.mul_comm, Z.div_mul by lia. reflexivity. }
  assert (Hr : snd (Z.div_eucl (Zpos a * 2 ^ 53) (Zpos a)) = 0).
  { change (snd (Z.div_eucl (Zpos a * 2 ^ 53) (Zpos a)))
      with ((Zpos a * 2 ^ 53) mod Zpos a).
    rewrite Z.mul_comm, Z.mod_mul by lia. reflexivity. }
  destruct (Z.div_eucl (Zpos a * 2 ^ 53) (Zpos a)) as [q r].
  cbn [fst snd] in Hq, Hr. subst q r.
  replace (new_location (Zpos a) 0) with loc_Exact
    by (unfold new_location; destruct (Z.even (Zpos a)); reflexivity).
  vm_compute. reflexivity.
Qed.

Lemma int_truediv_self n : 0 < n -> int_truediv n n = Ok (B64.of_int 1).
Proof.
  intros H. destruct n as [|p|p]; try lia.
  unfold int_truediv. change (Z.pos p <? 0) with false. cbn [Z.abs Z.to_pos].
  rewrite div_pos_self. reflexivity.
Qed.

Lemma int_truediv_zero n : 0 < n -> int_truediv 0 n = Ok (S754_zero false).
Proof. intros H. destruct n as [|p|p]; try lia. reflexivity. Qed.

Lemma len_pos {A} (l : list A) : l <> [] -> 0 < len l.
Proof. destruct l; [congruence | unfold len; cbn [List.length]; lia]. Qed.

Lemma filter_all {A} (f : A -> bool) l :
  Forall (fun x => f x = true) l -> filter f l = l.
Proof.
  induction 1 as [|x l Hx Hl IH]; [reflexivity|].
  cbn [filter]. rewrite Hx, IH. reflexivity.
Qed.

Lemma filter_none {A} (f : A -> bool) l :
  Forall (fun x => f x = false) l -> filter f l = [].
Proof.
  induction 1 as [|x l Hx Hl IH]; [reflexivity|].
  cbn [filter]. rewrite Hx, IH. reflexivity.
Qed.

Lemma div_zero_positive y :
  positive_float y -> B64.div (S754_zero false) y = S754_zero false.
Proof. intros [-> | (m & e & -> & _)]; reflexivity. Qed.

(** X7: when no trade of the journal has a positive profit, the win
    rate is zero, the average win is zero, and, when some trade has a
    loss, the profit factor is zero. *)
Theorem no_winner_report :
  forall st,
    trades st <> [] ->
    Forall (fun t => gt0 (profit_loss t) = false) (trades st) ->
    exists report,
      analyze_performance st = Ok report
      /\ win_rate report = S754_zero false
      /\ average_win report = B64.of_int 0
      /\ (loss_pool (trades st) <> [] -> profit_factor report = S754_zero false).
Proof.
  intros st Hne Hall. exists (report_of (trades st)).
  split; [apply analyze_performance_report; exact Hne|].
  assert (E : filter winning (trades st) = []) by (apply filter_none; exact Hall).
  cbn [report_of win_rate average_win profit_factor].
  unfold profit_pool. rewrite E.
  change (len (@nil TradeEntry)) with 0.
  rewrite int_truediv_zero by (apply len_pos; exact Hne).
  split; [reflexivity|]. split; [reflexivity|].
  intros Hl. apply nonempty_spec in Hl. rewrite Hl.
  apply div_zero_positive. apply py_sum_positive.
  - apply nonempty_spec. exact Hl.
  - apply loss_pool_positive.
Qed.

(** ** The win rate of a condition at its extremes *)

Lemma occurrences_filter_all k (f : TradeEntry -> bool) ts :
  Forall (fun t => carries k t = true -> f t = true) ts ->
  occurrences k (filter f ts) = occurrences k ts.
Proof.
  unfold occurrences. induction 1 as [|t ts Ht Hts IH]; [reflexivity|].
  cbn [filter flat_map]. destruct (f t) eqn:E.
  - cbn [flat_map]. rewrite !len_app, IH. reflexivity.
  - rewrite len_app, IH.
    assert (Hc : carries k t = false).
    { destruct (carries k t); [specialize (Ht eq_refl); congruence | reflexivity]. }
    assert (Hn : filter (String.eqb k) (market_conditions t) = []).
    { destruct (filter (String.eqb k) (market_conditions t)) as [|c cs] eqn:Ef; trivial.
      assert (Hin : In c (filter (String.eqb k) (market_conditions t)))
        by (rewrite Ef; left; reflexivity).
      apply filter_In in Hin. destruct Hin as [Hin Hk].
      apply String.eqb_eq in Hk. subst c.
      apply mem_In in Hin. unfold carries in Hc. congruence. }
    rewrite Hn. reflexivity.
Qed.

Lemma occurrences_filter_none k (f : TradeEntry -> bool) ts :
  Forall (fun t => carries k t = true -> f t = false) ts ->
  occurrences k (filter f ts) = 0.
Proof.
  unfold occurrences. induction 1 as [|t ts Ht Hts IH]; [reflexivity|].
  cbn [filter]. destruct (f t) eqn:E; [|exact IH].
  cbn [flat_map]. rewrite len_app, IH.
  assert (Hc : carries k t = false).
  { destruct (carries k t); [specialize (Ht eq_refl); congruence | reflexivity]. }
  destruct (filter (String.eqb k) (market_conditions t)) as [|c cs] eqn:Ef; trivial.
  assert (Hin : In c (filter (String.eqb k) (market_conditions t)))
    by (rewrite Ef; left; reflexivity).
  apply filter_In in Hin. destruct Hin as [Hin Hk].
  apply String.eqb_eq in Hk. subst c.
  apply mem_In in Hin. unfold carries in Hc. congruence.
Qed.

Lemma rate_value_counts ts x :
  In x (condition_performance ts) ->
  rate_value x
  = value_or_nan (int_truediv (occurrences (fst x) (filter winning ts))
                              (occurrences (fst x) ts))
  /\ 0 < occurrences (fst x) ts.
Proof.
  intros Hx. destruct x as [k v].
  pose proof (condition_performance_nonempty ts) as Hn.
  rewrite Forall_forall in Hn. specialize (Hn _ Hx). cbn [snd fst] in *.
  pose proof (condition_performance_value _ _ _ Hx) as Hv.
  unfold rate_value, rate. cbn [snd].
  rewrite Hv, sum_outcomes, len_outcomes. split; [reflexivity|].
  rewrite <- len_outcomes, <- Hv. apply len_pos. exact Hn.
Qed.

(** X9: the win rate of every condition of the dictionary lies between
    zero and one.  It is exactly one, and the insight reads 100.0%, when
    every trade that carries the label wins; it is exactly zero, and the
    insight reads 0.0%, when none does. *)
Theorem condition_rate_extremes :
  forall ts,
    Forall
      (fun x =>
         in_unit_interval (rate_value x)
         /\ (Forall (fun t => carries (fst x) t = true -> winning t = true) ts ->
             rate_value x = B64.of_int 1
             /\ insight_text x = ("Best win rate in " ++ fst x ++ ": 100.0%")%string)
         /\ (Forall (fun t => carries (fst x) t = true -> winning t = false) ts ->
             rate_value x = B64.of_int 0
             /\ insight_text x = ("Best win rate in " ++ fst x ++ ": 0.0%")%string))
      (condition_performance ts).
Proof.
  intros ts. apply Forall_forall. intros x Hx.
  destruct (rate_value_counts ts x Hx) as [Hr Hpos].
  split; [|split].
  - apply below_one_unit. apply rate_defined.
    pose proof (condition_performance_nonempty ts) as Hn.
    rewrite Forall_forall in Hn. apply Hn. exact Hx.
  - intros Hall.
    assert (E : rate_value x = B64.of_int 1).
    { rewrite Hr, occurrences_filter_all by exact Hall.
      rewrite int_truediv_self by exact Hpos. reflexivity. }
    split; [exact E|]. unfold insight_text. rewrite E. reflexivity.
  - intros Hnone.
    assert (E : rate_value x = B64.of_int 0).
    { rewrite Hr, occurrences_filter_none by exact Hnone.
      rewrite int_truediv_zero by exact Hpos. reflexivity. }
    split; [exact E|]. unfold insight_text. rewrite E. reflexivity.
Qed.

(** X8: when every trade of the journal has a positive profit, the win
    rate is exactly one, the average loss is zero, and the win rate of
    every condition is exactly one. *)
Theorem all_winners_report :
  forall st,
    trades st <> [] ->
    Forall (fun t => gt0 (profit_loss t) = true) (trades st) ->
    exists report,
      analyze_performance st = Ok report
      /\ win_rate report = B64.of_int 1
      /\ average_loss report = B64.of_int 0
      /\ Forall (fun x => rate_value x = B64.of_int 1)
                (condition_performance (trades st)).
Proof.
  intros st Hne Hall. exists (report_of (trades st)).
  split; [apply analyze_performance_report; exact Hne|].
  cbn [report_of win_rate average_loss].
  rewrite (filter_all winning _ Hall).
  rewrite int_truediv_self by (apply len_pos; exact Hne).
  rewrite (all_winning_no_loss _ Hall).
  split; [reflexivity|]. split; [reflexivity|].
  apply Forall_forall. intros x Hx.
  destruct (rate_value_counts (trades st) x Hx) as [Hr Hpos].
  rewrite Hr, occurrences_filter_all.
  - rewrite int_truediv_self by exact Hpos. reflexivity.
  - eapply Forall_impl; [|exact Hall]. cbn. intros t Ht _. exact Ht.
Qed.

(** ** The order of the journal *)

Lemma len_flat_map_perm {A B} (g : A -> list B) l l' :
  Permutation l l' -> len (flat_map g l) = len (flat_map g l').
Proof.
  induction 1; cbn [flat_map]; rewrite ?len_app; lia.
Qed.

Lemma flat_map_filter {A B} (g : A -> list B) (f : A -> bool) l :
  flat_map g (filter f l) = flat_map (fun x => if f x then g x else []) l.
Proof.
  induction l as [|x l IH]; [reflexivity|].
  cbn [filter flat_map]. destruct (f x); cbn [flat_map app]; rewrite IH; reflexivity.
Qed.

Lemma filter_as_flat_map {A} (f : A -> bool) l :
  filter f l = flat_map (fun x => if f x then [x] else []) l.
Proof.
  induction l as [|x l IH]; [reflexivity|].
  cbn [filter flat_map]. destruct (f x); cbn [app]; rewrite IH; reflexivity.
Qed.

Lemma len_filter_perm {A} (f : A -> bool) l l' :
  Permutation l l' -> len (filter f l) = len (filter f l').
Proof. intros H. rewrite !filter_as_flat_map. apply len_flat_map_perm, H. Qed.

Lemma occurrences_perm k ts us :
  Permutation ts us -> occurrences k ts = occurrences k us.
Proof. apply len_flat_map_perm. Qed.

Lemma occurrences_filter_perm k f ts us :
  Permutation ts us -> occurrences k (filter f ts) = occurrences k (filter f us).
Proof.
  intros H. unfold occurrences. rewrite !flat_map_filter. apply len_flat_map_perm, H.
Qed.

Lemma len_perm {A} (l l' : list A) : Permutation l l' -> len l = len l'.
Proof. intros H. unfold len. rewrite (Permutation_length H). reflexivity. Qed.

(** X10: the win rates do not depend on the order of the journal.  Two
    journals that hold the same trades in any order have the same win
    rate, the same conditions, and the same win rate for each condition.
    (The sums of the pools and the ranking of ties may differ.) *)
Theorem win_rates_ignore_order :
  forall st1 st2,
    trades st1 <> [] ->
    Permutation (trades st1) (trades st2) ->
    exists r1 r2,
      analyze_performance st1 = Ok r1
      /\ analyze_performance st2 = Ok r2
      /\ win_rate r1 = win_rate r2
      /\ (forall k, In k (map fst (condition_performance (trades st1)))
                    <-> In k (map fst (condition_performance (trades st2))))
      /\ (forall x1 x2,
            In x1 (condition_performance (trades st1)) ->
            In x2 (condition_performance (trades st2)) ->
            fst x1 = fst x2 -> rate_value x1 = rate_value x2).
Proof.
  intros st1 st2 Hne Hperm.
  assert (Hne2 : trades st2 <> []).
  { intros E. rewrite E in Hperm. apply Permutation_sym, Permutation_nil in Hperm.
    contradiction. }
  exists (report_of (trades st1)), (report_of (trades st2)).
  split; [apply analyze_performance_report; exact Hne|].
  split; [apply analyze_performance_report; exact Hne2|].
  cbn [report_of win_rate].
  split.
  { rewrite (len_filter_perm winning _ _ Hperm), (len_perm _ _ Hperm). reflexivity. }
  split.
  { intros k. rewrite !condition_performance_keys, !first_seen_In.
    split; intros (l & Hl & Hk); apply in_map_iff in Hl; destruct Hl as (t & <- & Ht);
      exists (market_conditions t); (split; [apply in_map|exact Hk]).
    - eapply Permutation_in; eauto.
    - eapply Permutation_in; [apply Permutation_sym|]; eauto. }
  intros x1 x2 H1 H2 E.
  destruct (rate_value_counts _ _ H1) as [-> _].
  destruct (rate_value_counts _ _ H2) as [-> _].
  rewrite <- E, (occurrences_filter_perm _ winning _ _ Hperm), (occurrences_perm _ _ _ Hperm).
  reflexivity.
Qed.

(** ** The best conditions *)

Lemma NoDup_firstn {A} n (l : list A) : NoDup l -> NoDup (firstn n l).
Proof.
  intros H. rewrite <- (firstn_skipn n l) in H.
  eapply NoDup_app_remove_r. exact H.
Qed.

Lemma first_seen_nil ls : first_seen ls = [] <-> Forall (fun l => l = []) ls.
Proof.
  split.
  - intros E. apply Forall_forall. intros l Hl.
    destruct l as [|c cs]; trivial.
    assert (Hin : In c (first_seen ls)).
    { apply first_seen_In. exists (c :: cs). split; [exact Hl | left; reflexivity]. }
    rewrite E in Hin. destruct Hin.
  - intros H. destruct (first_seen ls) as [|c cs] eqn:E; trivial.
    assert (Hin : In c (first_seen ls)) by (rewrite E; left; reflexivity).
    apply first_seen_In in Hin. destruct Hin as (l & Hl & Hc).
    rewrite Forall_forall in H. rewrite (H l Hl) in Hc. destruct Hc.
Qed.

(** X11: the best conditions are at most three, pairwise distinct, and
    each is a label that some trade of the journal carries; the list is
    empty exactly when no trade carries a label. *)
Theorem best_conditions_sound :
  forall st,
    trades st <> [] ->
    exists report,
      analyze_performance st = Ok report
      /\ NoDup (best_conditions report)
      /\ (List.length (best_conditions report) <= 3)%nat
      /\ (forall k, In k (best_conditions report) ->
                    exists t, In t (trades st) /\ In k (market_conditions t))
      /\ (best_conditions report = []
          <-> Forall (fun t => market_conditions t = []) (trades st)).
Proof.
  intros st Hne. exists (report_of (trades st)).
  split; [apply analyze_performance_report; exact Hne|].
  cbn [report_of best_conditions].
  set (perf := condition_performance (trades st)).
  pose proof (sort_by_perm rate_value perf) as Hperm.
  assert (Hnd : NoDup (map fst (sort_by rate_value perf))).
  { eapply Permutation_NoDup; [apply Permutation_map; exact Hperm|].
    apply condition_performance_NoDup. }
  split; [rewrite <- firstn_map; apply NoDup_firstn; exact Hnd|].
  split; [rewrite length_map; apply firstn_le_length|].
  split.
  { intros k Hk. rewrite <- firstn_map in Hk. apply In_firstn in Hk.
    apply (Permutation_in _ (Permutation_sym (Permutation_map fst Hperm))) in Hk.
    unfold perf in Hk. rewrite condition_performance_keys in Hk.
    apply first_seen_In in Hk. destruct Hk as (l & Hl & Hk).
    apply in_map_iff in Hl. destruct Hl as (t & <- & Ht). eauto. }
  assert (Hlen : List.length (sort_by rate_value perf)
                 = List.length (first_seen (map market_conditions (trades st)))).
  { rewrite <- (Permutation_length Hperm). unfold perf.
    rewrite <- condition_performance_keys, length_map. reflexivity. }
  split.
  - intros E. apply (f_equal (@List.length string)) in E.
    rewrite length_map, length_firstn, Hlen in E. cbn [List.length] in E.
    assert (E' : first_seen (map market_conditions (trades st)) = []).
    { destruct (first_seen (map market_conditions (trades st))); [reflexivity|].
      cbn [List.length] in E. lia. }
    apply first_seen_nil in E'. rewrite Forall_map in E'. exact E'.
  - intros H. assert (E' : first_seen (map market_conditions (trades st)) = []).
    { apply first_seen_nil. rewrite Forall_map. exact H. }
    rewrite E' in Hlen. cbn [List.length] in Hlen.
    destruct (sort_by rate_value perf); [reflexivity | discriminate].
Qed.

(** ** The sign of the profit factor *)

Lemma binary_round_aux_not_negative m e l :
  lt0 (binary_round_aux B64.prec B64.emax false m e l) = false.
Proof.
  unfold binary_round_aux.
  destruct (shr_fexp B64.prec B64.emax m e l) as [mrs' e'].
  destruct (shr_fexp B64.prec B64.emax _ e' loc_Exact) as [mrs'' e''].
  destruct (shr_m mrs''); try reflexivity.
  destruct (e'' <=? B64.emax - B64.prec); reflexivity.
Qed.

Lemma div_not_negative x y :
  x = S754_zero false \/ positive_float x ->
  positive_float y ->
  lt0 (B64.div x y) = false.
Proof.
  intros Hx [-> | (my & ey & -> & _)].
  - destruct Hx as [-> | [-> | (mx & ex & -> & _)]]; reflexivity.
  - destruct Hx as [-> | [-> | (mx & ex & -> & _)]]; try reflexivity.
    unfold B64.div, SFdiv.
    destruct (SFdiv_core_binary B64.prec B64.emax (Zpos mx) ex (Zpos my) ey) as [[mz ez] lz].
    apply binary_round_aux_not_negative.
Qed.

Lemma profit_positive x y :
  gt0 (B64.mul x y) = true -> positive_float (B64.mul x y).
Proof.
  intros H. destruct (gt0_shape _ H) as [E | (m & e & E)]; rewrite E.
  - left; reflexivity.
  - right. exists m, e. split; [reflexivity|]. eapply mul_exponent; eauto.
Qed.

Lemma profit_pool_positive ts : Forall positive_float (profit_pool ts).
Proof.
  unfold profit_pool. apply Forall_forall. intros x Hx.
  apply in_map_iff in Hx. destruct Hx as (t & <- & Ht).
  apply filter_In in Ht. destruct Ht as [_ Ht].
  apply profit_positive. exact Ht.
Qed.

Lemma py_sum_not_negative l :
  Forall positive_float l -> py_sum l = S754_zero false \/ positive_float (py_sum l).
Proof.
  intros H. destruct l as [|x l]; [left; reflexivity|].
  right. apply py_sum_positive; [discriminate | exact H].
Qed.

(** X12: the profit factor is never negative: on every journal that is
    not empty the analyzer returns a report whose profit factor does not
    compare below zero. *)
Theorem profit_factor_not_negative :
  forall st,
    (trades st = [] \/
     exists report,
       analyze_performance st = Ok report
       /\ lt0 (profit_factor report) = false).
Proof.
  intros st. destruct (trades st) as [|t ts] eqn:E; [left; reflexivity | right].
  exists (report_of (trades st)).
  split; [apply analyze_performance_report; rewrite E; discriminate|].
  cbn [report_of profit_factor].
  destruct (nonempty (loss_pool (trades st))) eqn:El; [|reflexivity].
  apply div_not_negative.
  - apply py_sum_not_negative, profit_pool_positive.
  - apply py_sum_positive; [apply nonempty_spec; exact El | apply loss_pool_positive].
Qed.

(** ** Wins, losses and prices *)

Lemma binary_round_aux_not_positive m e l :
  gt0 (binary_round_aux B64.prec B64.emax true m e l) = false.
Proof.
  unfold binary_round_aux.
  destruct (shr_fexp B64.prec B64.emax m e l) as [mrs' e'].
  destruct (shr_fexp B64.prec B64.emax _ e' loc_Exact) as [mrs'' e''].
  destruct (shr_m mrs''); try reflexivity.
  destruct (e'' <=? B64.emax - B64.prec); reflexivity.
Qed.

(** The sign of a product is the product of the signs. *)
Lemma mul_signs x y :
  (gt0 (B64.mul x y) = true ->
   (gt0 x = true /\ gt0 y = true) \/ (lt0 x = true /\ lt0 y = true))
  /\ (lt0 (B64.mul x y) = true ->
      (gt0 x = true /\ lt0 y = true) \/ (lt0 x = true /\ gt0 y = true)).
Proof.
  destruct x as [sx | sx | | sx mx ex], y as [sy | sy | | sy my ey];
    try (destruct sx); try (destruct sy);
    try (split; intros H; try discriminate H; auto; fail).
  all: unfold B64.mul, SFmul; cbn [xorb]; split; intros H; auto.
  all: first [ rewrite binary_round_aux_not_positive in H
             | rewrite binary_round_aux_not_negative in H ]; discriminate.
Qed.

Lemma binary_normalize_signs z e :
  (gt0 (binary_normalize B64.prec B64.emax z e false) = true -> 0 < z)
  /\ (lt0 (binary_normalize B64.prec B64.emax z e false) = true -> z < 0).
Proof.
  destruct z as [|p|p]; cbn [binary_normalize]; unfold binary_round.
  - split; discriminate.
  - destruct (shl_align p e _) as [mz ez]. split; [lia|].
    rewrite binary_round_aux_not_negative. discriminate.
  - destruct (shl_align p e _) as [mz ez]. split; [|lia].
    rewrite binary_round_aux_not_positive. discriminate.
Qed.

Lemma iter_xO m d : Zpos (Pos.iter xO m d) = Zpos m * 2 ^ Zpos d.
Proof.
  induction d as [|d IH] using Pos.peano_ind.
  - cbn [Pos.iter]. rewrite Z.pow_1_r. lia.
  - rewrite Pos.iter_succ, Pos2Z.inj_xO, IH, Pos2Z.inj_succ, Z.pow_succ_r by lia. lia.
Qed.

Lemma shl_align_fst m e ez :
  ez <= e -> Zpos (fst (shl_align m e ez)) = Zpos m * 2 ^ (e - ez).
Proof.
  intros H. unfold shl_align.
  destruct (ez - e) as [|d|d] eqn:E; try lia; cbn [fst].
  - replace (e - ez) with 0 by lia. lia.
  - rewrite iter_xO. f_equal. f_equal. lia.
Qed.

Lemma Zdigits2_upper m : 0 < m -> m < 2 ^ Zdigits2 m.
Proof.
  intros H. destruct m as [|p|p]; try lia.
  change (Zdigits2 (Zpos p)) with (Zpos (digits2_pos p)).
  rewrite digits2_pos_size. pose proof (Pos.size_gt p) as Hs.
  assert (Hz : Zpos p < Zpos (2 ^ Pos.size p)) by lia.
  rewrite Pos2Z.inj_pow in Hz. exact Hz.
Qed.

(** Valid floats of one sign are ordered by exponent, then mantissa. *)
Lemma canonical_order m1 e1 m2 e2 :
  canonical_mantissa B64.prec B64.emax m1 e1 = true ->
  canonical_mantissa B64.prec B64.emax m2 e2 = true ->
  Zpos m2 * 2 ^ (e2 - Z.min e1 e2) < Zpos m1 * 2 ^ (e1 - Z.min e1 e2) ->
  e2 < e1 \/ (e2 = e1 /\ (m2 < m1)%positive).
Proof.
  unfold canonical_mantissa. intros H1 H2 Hlt.
  apply Z.eqb_eq in H1, H2. rewrite fexp_le in H1, H2.
  pose proof (Zdigits2_upper (Zpos m1) ltac:(lia)) as U1.
  pose proof (Zdigits2_lower (Zpos m2) ltac:(lia)) as L2.
  change (Zdigits2 (Zpos m1)) with (Zpos (digits2_pos m1)) in U1.
  change (Zdigits2 (Zpos m2)) with (Zpos (digits2_pos m2)) in L2.
  destruct (Z.lt_trichotomy e1 e2) as [Hc | [Hc | Hc]].
  - exfalso.
    rewrite Z.min_l, Z.sub_diag, Z.mul_1_r in Hlt by lia.
    assert (Hd2 : Zpos (digits2_pos m2) = 53) by lia.
    assert (Hd1 : Zpos (digits2_pos m1) <= 53) by lia.
    rewrite Hd2 in L2. change (2 ^ (53 - 1)) with (2 ^ 52) in L2.
    assert (Hm1 : Zpos m1 < 2 ^ 53).
    { eapply Z.lt_le_trans; [exact U1|]. apply Z.pow_le_mono_r; lia. }
    assert (Hp : 2 ^ 1 <= 2 ^ (e2 - e1)) by (apply Z.pow_le_mono_r; lia).
    change (2 ^ 1) with 2 in Hp. change (2 ^ 53) with (2 * 2 ^ 52) in Hm1.
    nia.
  - right. split; [lia|]. subst e2.
    rewrite Z.min_id, Z.sub_diag, !Z.mul_1_r in Hlt. lia.
  - left. lia.
Qed.

Lemma valid_finite s m e :
  valid_binary B64.prec B64.emax (S754_finite s m e) = true ->
  canonical_mantissa B64.prec B64.emax m e = true.
Proof. cbn. unfold bounded. intros H. apply andb_prop in H. tauto. Qed.

Lemma compare_lt_pos m1 e1 m2 e2 :
  e2 < e1 \/ (e2 = e1 /\ (m2 < m1)%positive) ->
  SFcompare (S754_finite false m2 e2) (S754_finite false m1 e1) = Some Lt
  /\ SFcompare (S754_finite true m1 e1) (S754_finite true m2 e2) = Some Lt.
Proof.
  intros [H | [-> H]]; cbn [SFcompare].
  - rewrite (proj2 (Z.compare_lt_iff e2 e1)), (proj2 (Z.compare_gt_iff e1 e2)) by lia.
    split; reflexivity.
  - rewrite Z.compare_refl.
    change (Pos.compare_cont Eq m2 m1) with (Pos.compare m2 m1).
    change (Pos.compare_cont Eq m1 m2) with (Pos.compare m1 m2).
    rewrite (proj2 (Pos.compare_lt_iff m2 m1)), (proj2 (Pos.compare_gt_iff m1 m2)) by lia.
    split; reflexivity.
Qed.

(** A positive difference of two valid floats has the larger first. *)
Lemma sub_positive_lt x y :
  valid_binary B64.prec B64.emax x = true ->
  valid_binary B64.prec B64.emax y = true ->
  gt0 (B64.sub x y) = true -> B64.ltb y x = true.
Proof.
  intros Vx Vy.
  destruct x as [sx | sx | | sx mx ex], y as [sy | sy | | sy my ey];
    try (destruct sx); try (destruct sy); try discriminate; try reflexivity.
  all: unfold B64.sub, SFsub, cond_Zopp; intros H;
    apply binary_normalize_signs in H;
    rewrite !shl_align_fst in H by lia;
    apply valid_finite in Vx; apply valid_finite in Vy.
  - unfold B64.ltb, SFltb.
    rewrite (proj2 (compare_lt_pos my ey mx ex ltac:(apply canonical_order; trivial; rewrite Z.min_comm; lia))).
    reflexivity.
  - exfalso.
    assert (0 < 2 ^ (ex - Z.min ex ey)) by (apply Z.pow_pos_nonneg; lia).
    assert (0 < 2 ^ (ey - Z.min ex ey)) by (apply Z.pow_pos_nonneg; lia). nia.
  - unfold B64.ltb, SFltb.
    rewrite (proj1 (compare_lt_pos mx ex my ey ltac:(apply canonical_order; trivial; lia))).
    reflexivity.
Qed.

(** A negative difference of two valid floats has the smaller first. *)
Lemma sub_negative_lt x y :
  valid_binary B64.prec B64.emax x = true ->
  valid_binary B64.prec B64.emax y = true ->
  lt0 (B64.sub x y) = true -> B64.ltb x y = true.
Proof.
  intros Vx Vy.
  destruct x as [sx | sx | | sx mx ex], y as [sy | sy | | sy my ey];
    try (destruct sx); try (destruct sy); try discriminate; try reflexivity.
  all: unfold B64.sub, SFsub, cond_Zopp; intros H;
    apply binary_normalize_signs in H;
    rewrite !shl_align_fst in H by lia;
    apply valid_finite in Vx; apply valid_finite in Vy.
  - unfold B64.ltb, SFltb.
    rewrite (proj2 (compare_lt_pos mx ex my ey ltac:(apply canonical_order; trivial; lia))).
    reflexivity.
  - exfalso.
    assert (0 < 2 ^ (ex - Z.min ex ey)) by (apply Z.pow_pos_nonneg; lia).
    assert (0 < 2 ^ (ey - Z.min ex ey)) by (apply Z.pow_pos_nonneg; lia). nia.
  - unfold B64.ltb, SFltb.
    rewrite (proj1 (compare_lt_pos my ey mx ex ltac:(apply canonical_order; trivial; rewrite Z.min_comm; lia))).
    reflexivity.
Qed.

Lemma positive_size_signs a size :
  gt0 size = true ->
  (gt0 (B64.mul a size) = true -> gt0 a = true)
  /\ (lt0 (B64.mul a size) = true -> lt0 a = true).
Proof.
  intros Hs. destruct (gt0_exclusive _ Hs) as [Hl _].
  destruct (mul_signs a size) as [Hg Hn].
  split; intros H.
  - destruct (Hg H) as [[? _] | [_ ?]]; [trivial | congruence].
  - destruct (Hn H) as [[_ ?] | [? _]]; [congruence | trivial].
Qed.

Lemma long_multiplier_signs d :
  (gt0 (B64.mul (B64.of_int 1) d) = true -> gt0 d = true)
  /\ (lt0 (B64.mul (B64.of_int 1) d) = true -> lt0 d = true).
Proof.
  destruct (mul_signs (B64.of_int 1) d) as [Hg Hn].
  split; intros H.
  - destruct (Hg H) as [[_ ?] | [? _]]; [trivial | discriminate].
  - destruct (Hn H) as [[_ ?] | [? _]]; [trivial | discriminate].
Qed.

Lemma short_multiplier_signs d :
  (gt0 (B64.mul (B64.of_int (-1)) d) = true -> lt0 d = true)
  /\ (lt0 (B64.mul (B64.of_int (-1)) d) = true -> gt0 d = true).
Proof.
  destruct (mul_signs (B64.of_int (-1)) d) as [Hg Hn].
  split; intros H.
  - destruct (Hg H) as [[? _] | [_ ?]]; [discriminate | trivial].
  - destruct (Hn H) as [[? _] | [_ ?]]; [discriminate | trivial].
Qed.

(** X6: wins follow the prices.  For a trade with valid prices and a
    positive size: of type 'long', it is counted as a win only if the
    exit price is above the entry price and as a loss only if it is
    below; of any other type, the other way round. *)
Theorem wins_follow_prices :
  forall t,
    valid_binary B64.prec B64.emax (entry_price t) = true ->
    valid_binary B64.prec B64.emax (exit_price t) = true ->
    gt0 (position_size t) = true ->
    (trade_type t = "long" ->
     (winning t = true -> B64.ltb (entry_price t) (exit_price t) = true)
     /\ (losing t = true -> B64.ltb (exit_price t) (entry_price t) = true))
    /\ (trade_type t <> "long" ->
        (winning t = true -> B64.ltb (exit_price t) (entry_price t) = true)
        /\ (losing t = true -> B64.ltb (entry_price t) (exit_price t) = true)).
Proof.
  intros t Ven Vex Hs.
  destruct (positive_size_signs
              (B64.mul (B64.of_int (multiplier t))
                       (B64.sub (exit_price t) (entry_price t)))
              (position_size t) Hs) as [Hg Hn].
  fold (profit_loss t) in Hg, Hn. unfold winning, losing.
  split; intros Hty.
  - assert (Hm : multiplier t = 1)
      by (unfold multiplier; rewrite Hty; reflexivity).
    rewrite Hm in Hg, Hn.
    destruct (long_multiplier_signs (B64.sub (exit_price t) (entry_price t))) as [Lg Ln].
    split; intros H.
    + apply sub_positive_lt; auto.
    + apply sub_negative_lt; auto.
  - assert (Hm : multiplier t = -1).
    { unfold multiplier. destruct (String.eqb_spec (trade_type t) "long"); congruence. }
    rewrite Hm in Hg, Hn.
    destruct (short_multiplier_signs (B64.sub (exit_price t) (entry_price t))) as [Sg Sn].
    split; intros H.
    + apply sub_negative_lt; auto.
    + apply sub_positive_lt; auto.
Qed.

(** ** What the dictionary of the analyzer holds *)

(** X13: what the dictionary holds after the two nested loops.  Its keys
    are the labels of the journal in first-seen order; under each label
    it holds the outcomes of the trades that carry the label, in the
    order of the journal, once per occurrence of the label; and a label
    that is no key has no outcome. *)
Theorem condition_performance_contents :
  forall ts,
    map fst (condition_performance ts) = first_seen (map market_conditions ts)
    /\ Forall (fun x => snd x = outcomes (fst x) (events ts))
              (condition_performance ts)
    /\ (forall k, ~ In k (map fst (condition_performance ts)) ->
                  outcomes k (events ts) = []).
Proof.
  intros ts. split; [apply condition_performance_keys|]. split.
  - apply Forall_forall. intros [k v] Hx. cbn [fst snd].
    apply condition_performance_value. exact Hx.
  - intros k Hk. rewrite condition_performance_keys in Hk.
    destruct (outcomes k (events ts)) as [|b bs] eqn:E; [reflexivity|].
    exfalso. apply Hk.
    assert (Hin : In b (outcomes k (events ts))) by (rewrite E; left; reflexivity).
    unfold outcomes in Hin. apply in_map_iff in Hin.
    destruct Hin as ([k' b'] & _ & Hin). apply filter_In in Hin.
    destruct Hin as [Hin Hk']. cbn [fst] in Hk'. apply String.eqb_eq in Hk'. subst k'.
    apply (in_map fst) in Hin. rewrite events_keys in Hin. cbn [fst] in Hin.
    apply first_seen_In. apply in_concat in Hin. exact Hin.
Qed.

(** ** A trade without conditions *)

Lemma events_app ts us : events (ts ++ us) = events ts ++ events us.
Proof. unfold events. apply flat_map_app. Qed.

Lemma events_unlabelled ts1 t ts2 :
  market_conditions t = [] -> events (ts1 ++ t :: ts2) = events (ts1 ++ ts2).
Proof.
  intros H. rewrite !events_app. f_equal.
  unfold events. cbn [flat_map]. rewrite H. reflexivity.
Qed.

(** X14: a trade without market conditions changes neither the best
    conditions nor the insights, wherever it stands in the journal. *)
Theorem unlabelled_trade_keeps_ranking :
  forall st1 st2 ts1 t ts2,
    trades st1 = ts1 ++ t :: ts2 ->
    trades st2 = ts1 ++ ts2 ->
    ts1 ++ ts2 <> [] ->
    market_conditions t = [] ->
    exists r1 r2,
      analyze_performance st1 = Ok r1
      /\ analyze_performance st2 = Ok r2
      /\ best_conditions r1 = best_conditions r2
      /\ pattern_insights r1 = pattern_insights r2.
Proof.
  intros st1 st2 ts1 t ts2 E1 E2 Hne Ht.
  exists (report_of (trades st1)), (report_of (trades st2)).
  split; [apply analyze_performance_report; rewrite E1;
          intros E; apply app_eq_nil in E; destruct E; discriminate|].
  split; [apply analyze_performance_report; rewrite E2; exact Hne|].
  assert (E : condition_performance (trades st1) = condition_performance (trades st2)).
  { rewrite !condition_performance_events, E1, E2, events_unlabelled by exact Ht.
    reflexivity. }
  cbn [report_of best_conditions pattern_insights]. rewrite E. split; reflexivity.
Qed.

(** ** The fields that the analyses read *)





Section SameFigures.

Variable set_union : list (list string) -> list string.
Variable random_state : Type.
Variable forest : random_state -> Z -> list (list num) -> list Z -> fit.




End SameFigures.

(** ** The report of the pattern miner *)

Lemma map_nth_seq {A B} (f : A -> B) (d : A) n (l : list A) :
  map (fun i => f (nth i l d)) (seq 0 (Nat.min n (List.length l)))
  = map f (firstn n l).
Proof.
  revert n. induction l as [|x l IH]; intros n.
  - rewrite Nat.min_0_r, firstn_nil. reflexivity.
  - destruct n as [|n]; [reflexivity|].
    cbn [List.length Nat.min seq firstn map nth].
    f_equal. rewrite <- seq_shift, map_map. cbn [nth]. apply IH.
Qed.

Lemma StronglySorted_firstn {A} (R : A -> A -> Prop) n l :
  StronglySorted R l -> StronglySorted R (firstn n l).
Proof.
  intros H. revert n. induction H as [|x l Hl IH Hx]; intros n.
  - rewrite firstn_nil. constructor.
  - destruct n as [|n]; [constructor|]. cbn [firstn]. constructor; [apply IH|].
    apply Forall_firstn. exact Hx.
Qed.

Section PatternReportFacts.

Variable set_union : list (list string) -> list string.
Variable random_state : Type.
Variable forest : random_state -> Z -> list (list num) -> list Z -> fit.

Lemma importance_sort ts scores :
  importance set_union ts scores
  = sort_by (@snd string float) (combine (feature_names set_union ts) scores).
Proof.
  unfold importance.
  change (map (fun x : string * float => (snd x, x)))
    with (map (decorate (@snd string float))).
  apply sorted_reverse_by_key.
Qed.

Lemma analyze_patterns_report rs st scores :
  (10 <= List.length (trades st))%nat ->
  forest rs 50 (features set_union (trades st)) (labels (trades st))
  = Fitted scores ->
  analyze_patterns set_union random_state forest rs st
  = Ok {| important_factors :=
            firstn 5 (importance set_union (trades st) scores);
          success_patterns :=
            map (fun p => pattern_text (fst p))
                (firstn 3 (importance set_union (trades st) scores)) |}.
Proof.
  intros H Hfit. unfold analyze_patterns, len.
  destruct (Z.ltb_spec (Z.of_nat (List.length (trades st))) 10) as [Hlt | _]; [lia|].
  rewrite Hfit. f_equal. f_equal.
  apply (map_nth_seq (fun p => pattern_text (fst p)) ("", B64.zero) 3).
Qed.

(** X16: the shape of the pattern report.  On ten trades or more, when
    the fit returns its scores, the factors are at most five and as many
    as there are names and scores to pair; every factor is a name paired
    with the score of its own column; and the success patterns are the
    sentences for the first three factors, in the same order. *)
Theorem pattern_report_shape :
  forall rs st scores,
    (10 <= List.length (trades st))%nat ->
    forest rs 50 (features set_union (trades st)) (labels (trades st))
    = Fitted scores ->
    exists report,
      analyze_patterns set_union random_state forest rs st = Ok report
      /\ List.length (important_factors report)
         = Nat.min 5 (Nat.min (2 + List.length (all_conditions set_union (trades st)))
                              (List.length scores))
      /\ success_patterns report
         = map (fun p => pattern_text (fst p)) (firstn 3 (important_factors report))
      /\ List.length (success_patterns report)
         = Nat.min 3 (List.length (important_factors report))
      /\ Forall (fun p =>
                   In p (combine (feature_names set_union (trades st)) scores))
                (important_factors report).
Proof.
  intros rs st scores H Hfit.
  eexists. split; [apply analyze_patterns_report; eassumption|].
  cbn [important_factors success_patterns].
  pose proof (importance_perm set_union (trades st) scores) as Hperm.
  split.
  { rewrite length_firstn, (Permutation_length Hperm), length_combine.
    reflexivity. }
  split.
  { rewrite firstn_firstn. reflexivity. }
  split.
  { rewrite length_map, !length_firstn. lia. }
  apply Forall_firstn. apply Forall_forall. intros p Hp.
  eapply Permutation_in; eauto.
Qed.

(** X17: the factors are sorted.  On ten trades or more, when the fit
    returns its scores and none is NaN, the factors come by decreasing
    score, columns of equal score in the order of the columns, and no
    pair left out of the five has a larger score than a factor kept. *)
Theorem important_factors_sorted :
  forall rs st scores,
    (10 <= List.length (trades st))%nat ->
    forest rs 50 (features set_union (trades st)) (labels (trades st))
    = Fitted scores ->
    Forall (fun score => B64.is_nan score = false) scores ->
    exists report,
      analyze_patterns set_union random_state forest rs st = Ok report
      /\ important_factors report
         = firstn 5 (importance set_union (trades st) scores)
      /\ StronglySorted
           (ranks_before (@snd string float)
              (combine (feature_names set_union (trades st)) scores))
           (important_factors report)
      /\ (forall p q,
            In p (important_factors report) ->
            In q (skipn 5 (importance set_union (trades st) scores)) ->
            B64.leb (snd q) (snd p) = true).
Proof.
  intros rs st scores H Hfit Hnan.
  eexists. split; [apply analyze_patterns_report; eassumption|].
  cbn [important_factors]. split; [reflexivity|].
  set (pairs := combine (feature_names set_union (trades st)) scores).
  assert (Hs : StronglySorted (ranks_before (@snd string float) pairs)
                 (importance set_union (trades st) scores)).
  { rewrite importance_sort. apply sort_by_sorted.
    apply Forall_forall. intros [name score] Hp. apply in_combine_r in Hp.
    rewrite Forall_forall in Hnan. apply Hnan. exact Hp. }
  split; [apply StronglySorted_firstn; exact Hs|].
  intros p q Hp Hq. eapply ranks_before_ge.
  eapply StronglySorted_app_inv; [|exact Hp|exact Hq].
  rewrite firstn_skipn. exact Hs.
Qed.

End PatternReportFacts.

(** ** The target of the pattern miner *)

Lemma labels_sum ts :
  fold_left Z.add (labels ts) 0 = len (filter winning ts).
Proof.
  assert (H : forall a, fold_left Z.add (labels ts) a = a + len (filter winning ts)).
  { unfold labels. induction ts as [|t ts IH]; intros a; cbn [map fold_left filter].
    - unfold len. cbn. lia.
    - rewrite IH. unfold winning at 2.
      destruct (gt0 (profit_loss t)); unfold len; cbn [List.length]; lia. }
  rewrite H. lia.
Qed.

(** X18: the target of the classifier marks the wins.  There is one
    label per trade, each 0 or 1; the labels add up to the number of
    trades with a positive profit; and their sum divided by their number
    is the win rate that the analyzer reports. *)
Theorem labels_are_wins :
  forall st,
    List.length (labels (trades st)) = List.length (trades st)
    /\ Forall (fun y => y = 0 \/ y = 1) (labels (trades st))
    /\ fold_left Z.add (labels (trades st)) 0 = len (filter winning (trades st))
    /\ (trades st = [] \/
        exists report,
          analyze_performance st = Ok report
          /\ int_truediv (fold_left Z.add (labels (trades st)) 0)
                         (len (labels (trades st)))
             = Ok (win_rate report)).
Proof.
  intros st. split; [apply length_map|]. split.
  { unfold labels. apply Forall_forall. intros y Hy.
    apply in_map_iff in Hy. destruct Hy as (t & <- & _).
    destruct (gt0 (profit_loss t)); auto. }
  split; [apply labels_sum|].
  destruct (trades st) as [|t ts] eqn:E; [left; reflexivity | right].
  exists (report_of (trades st)).
  split; [apply analyze_performance_report; rewrite E; discriminate|].
  rewrite <- E, labels_sum. unfold labels. rewrite len_map.
  cbn [report_of win_rate].
  destruct (int_truediv_below_one (len (filter winning (trades st))) (len (trades st)))
    as (q & Hq & _).
  { unfold len. pose proof (filter_length_le winning (trades st)). lia. }
  { apply len_pos. rewrite E. discriminate. }
  rewrite Hq. reflexivity.
Qed.

(** ** The further properties at concrete journals *)


(** The trade bought at 100 and sold at 110, taken short. *)
Lemma short_mirrors_long_witness :
  "short" <> "long"
  /\ profit_loss (with_type "short" capital_long_trade) = B64.of_int (-10)
  /\ profit_loss (with_type "long" capital_long_trade) = B64.of_int 10
  /\ winning (with_type "short" capital_long_trade)
     = losing (with_type "long" capital_long_trade).
Proof.
  split; [discriminate|].
  destruct (short_mirrors_long capital_long_trade "short" ltac:(discriminate))
    as (_ & Hw & _).
  split; [vm_compute; reflexivity|]. split; [vm_compute; reflexivity | exact Hw].
Defined.

(** A trade bought and sold at 100. *)
Lemma flat_trade_in_no_pool_witness :
  B64.eqb (exit_price flat_trade) (entry_price flat_trade) = true
  /\ winning flat_trade = false /\ losing flat_trade = false.
Proof.
  split; [vm_compute; reflexivity|].
  apply (flat_trade_in_no_pool flat_trade). vm_compute. reflexivity.
Defined.

(** The long trade bought at 100 and sold at 110 wins, and 100 is below
    110. *)
Lemma wins_follow_prices_witness :
  valid_binary B64.prec B64.emax (entry_price (mk_trade "long" 100 110 1 [])) = true
  /\ valid_binary B64.prec B64.emax (exit_price (mk_trade "long" 100 110 1 [])) = true
  /\ gt0 (position_size (mk_trade "long" 100 110 1 [])) = true
  /\ winning (mk_trade "long" 100 110 1 []) = true
  /\ B64.ltb (B64.of_int 100) (B64.of_int 110) = true.
Proof.
  assert (H1 : valid_binary B64.prec B64.emax
                 (entry_price (mk_trade "long" 100 110 1 [])) = true)
    by (vm_compute; reflexivity).
  assert (H2 : valid_binary B64.prec B64.emax
                 (exit_price (mk_trade "long" 100 110 1 [])) = true)
    by (vm_compute; reflexivity).
  assert (H3 : gt0 (position_size (mk_trade "long" 100 110 1 [])) = true)
    by (vm_compute; reflexivity).
  assert (H4 : winning (mk_trade "long" 100 110 1 []) = true)
    by (vm_compute; reflexivity).
  split; [exact H1|]. split; [exact H2|]. split; [exact H3|]. split; [exact H4|].
  exact (proj1 (proj1 (wins_follow_prices _ H1 H2 H3) eq_refl) H4).
Defined.

(** A journal of one losing trade. *)
Lemma no_winner_report_witness :
  trades (journal [mk_trade "long" 30 20 1 ["range"]]) <> []
  /\ Forall (fun t => gt0 (profit_loss t) = false)
            (trades (journal [mk_trade "long" 30 20 1 ["range"]]))
  /\ exists report,
       analyze_performance (journal [mk_trade "long" 30 20 1 ["range"]]) = Ok report
       /\ win_rate report = S754_zero false
       /\ average_win report = B64.of_int 0.
Proof.
  assert (H : Forall (fun t => gt0 (profit_loss t) = false)
                (trades (journal [mk_trade "long" 30 20 1 ["range"]])))
    by (repeat constructor).
  split; [discriminate|]. split; [exact H|].
  destruct (no_winner_report (journal [mk_trade "long" 30 20 1 ["range"]])
              ltac:(discriminate) H) as (report & Hr & Hw & Ha & _).
  exists report. auto.
Defined.

(** A journal of one winning trade. *)
Lemma all_winners_report_witness :
  trades (journal [mk_trade "long" 100 110 1 ["trend"]]) <> []
  /\ Forall (fun t => gt0 (profit_loss t) = true)
            (trades (journal [mk_trade "long" 100 110 1 ["trend"]]))
  /\ exists report,
       analyze_performance (journal [mk_trade "long" 100 110 1 ["trend"]]) = Ok report
       /\ win_rate report = B64.of_int 1.
Proof.
  assert (H : Forall (fun t => gt0 (profit_loss t) = true)
                (trades (journal [mk_trade "long" 100 110 1 ["trend"]])))
    by (repeat constructor).
  split; [discriminate|]. split; [exact H|].
  destruct (all_winners_report (journal [mk_trade "long" 100 110 1 ["trend"]])
              ltac:(discriminate) H) as (report & Hr & Hw & _).
  exists report. auto.
Defined.

(** The example and the example read backwards. *)
Lemma win_rates_ignore_order_witness :
  trades (journal example_trades) <> []
  /\ Permutation (trades (journal example_trades))
                 (trades (journal (rev example_trades)))
  /\ exists r1 r2,
       analyze_performance (journal example_trades) = Ok r1
       /\ analyze_performance (journal (rev example_trades)) = Ok r2
       /\ win_rate r1 = win_rate r2.
Proof.
  split; [discriminate|]. split; [apply Permutation_rev|].
  destruct (win_rates_ignore_order (journal example_trades)
              (journal (rev example_trades)) ltac:(discriminate)
              (Permutation_rev example_trades))
    as (r1 & r2 & H1 & H2 & Hw & _).
  exists r1, r2. auto.
Defined.

(** The best conditions of the example. *)
Lemma best_conditions_sound_witness :
  trades (journal example_trades) <> []
  /\ exists report,
       analyze_performance (journal example_trades) = Ok report
       /\ NoDup (best_conditions report)
       /\ (List.length (best_conditions report) <= 3)%nat.
Proof.
  split; [discriminate|].
  destruct (best_conditions_sound (journal example_trades) ltac:(discriminate))
    as (report & Hr & Hnd & Hlen & _).
  exists report. auto.
Defined.

(** The example with a trade without conditions in second place. *)
Lemma unlabelled_trade_keeps_ranking_witness :
  firstn 1 example_trades ++ skipn 1 example_trades <> []
  /\ market_conditions unlabelled_trade = []
  /\ exists r1 r2,
       analyze_performance
         (journal (firstn 1 example_trades ++ unlabelled_trade :: skipn 1 example_trades))
       = Ok r1
       /\ analyze_performance
            (journal (firstn 1 example_trades ++ skipn 1 example_trades))
          = Ok r2
       /\ best_conditions r1 = best_conditions r2
       /\ pattern_insights r1 = pattern_insights r2.
Proof.
  split; [discriminate|]. split; [reflexivity|].
  apply (unlabelled_trade_keeps_ranking
           (journal (firstn 1 example_trades ++ unlabelled_trade :: skipn 1 example_trades))
           (journal (firstn 1 example_trades ++ skipn 1 example_trades))
           (firstn 1 example_trades) unlabelled_trade (skipn 1 example_trades)
           eq_refl eq_refl);
    [discriminate | reflexivity].
Defined.


(** The journal of ten trades under the forest of the examples, drawn
    uniform: five columns, five factors, three sentences. *)
Lemma pattern_report_shape_witness :
  (10 <= List.length (trades (journal ten_trades)))%nat
  /\ sample_forest true 50 (features first_seen (trades (journal ten_trades)))
                   (labels (trades (journal ten_trades)))
     = Fitted (uniform_importances (features first_seen ten_trades))
  /\ exists report,
       analyze_patterns first_seen bool sample_forest true (journal ten_trades)
       = Ok report
       /\ List.length (important_factors report) = 5%nat
       /\ success_patterns report
          = map (fun p => pattern_text (fst p)) (firstn 3 (important_factors report))
       /\ List.length (success_patterns report)
          = Nat.min 3 (List.length (important_factors report)).
Proof.
  assert (Hfit : sample_forest true 50
                   (features first_seen (trades (journal ten_trades)))
                   (labels (trades (journal ten_trades)))
                 = Fitted (uniform_importances (features first_seen ten_trades)))
    by (vm_compute; reflexivity).
  split; [cbn; lia|]. split; [exact Hfit|].
  destruct (pattern_report_shape first_seen bool sample_forest true
              (journal ten_trades) _ ltac:(cbn; lia) Hfit)
    as (report & Hr & Hn & Hs & Hl & _).
  exists report. split; [exact Hr|]. split; [|split; [exact Hs | exact Hl]].
  rewrite Hn. vm_compute. reflexivity.
Defined.

(** The journal of eleven trades under the forest of the examples, drawn
    along the ramp: six columns of six different scores, of which the
    five largest are kept, largest first, and the smallest, that of
    "trade_type", is cut. *)
Lemma important_factors_sorted_witness :
  (10 <= List.length (trades (journal eleven_trades)))%nat
  /\ sample_forest false 50 (features first_seen (trades (journal eleven_trades)))
                   (labels (trades (journal eleven_trades)))
     = Fitted (ramp_importances (features first_seen eleven_trades))
  /\ Forall (fun score => B64.is_nan score = false)
            (ramp_importances (features first_seen eleven_trades))
  /\ exists report,
       analyze_patterns first_seen bool sample_forest false (journal eleven_trades)
       = Ok report
       /\ map fst (important_factors report)
          = ["gap"; "news"; "range"; "trend"; "position_size"]
       /\ map fst (skipn 5 (importance first_seen eleven_trades
                              (ramp_importances (features first_seen eleven_trades))))
          = ["trade_type"]
       /\ StronglySorted
            (ranks_before (@snd string float)
               (combine (feature_names first_seen (trades (journal eleven_trades)))
                        (ramp_importances (features first_seen eleven_trades))))
            (important_factors report)
       /\ (forall p q,
             In p (important_factors report) ->
             In q (skipn 5 (importance first_seen (trades (journal eleven_trades))
                              (ramp_importances (features first_seen eleven_trades)))) ->
             B64.leb (snd q) (snd p) = true).
Proof.
  assert (Hfit : sample_forest false 50
                   (features first_seen (trades (journal eleven_trades)))
                   (labels (trades (journal eleven_trades)))
                 = Fitted (ramp_importances (features first_seen eleven_trades)))
    by (vm_compute; reflexivity).
  assert (H : Forall (fun score => B64.is_nan score = false)
                (ramp_importances (features first_seen eleven_trades)))
    by (vm_compute; repeat constructor).
  split; [cbn; lia|]. split; [exact Hfit|]. split; [exact H|].
  destruct (important_factors_sorted first_seen bool sample_forest false
              (journal eleven_trades) _ ltac:(cbn; lia) Hfit H)
    as (report & Hr & Hfive & Hsorted & Hq).
  exists report. split; [exact Hr|]. split.
  { rewrite Hfive. vm_compute. reflexivity. }
  split; [vm_compute; reflexivity|]. split; [exact Hsorted | exact Hq].
Defined.
